(** * Data-reconstruction drift calculator (nannyml)

    A shallow embedding of
    [nannyml/drift/model_inputs/multivariate/data_reconstruction/calculator.py]
    and [results.py], and the properties of the fit / calculate / plot
    life cycle that the specification states about them.

    Conventions of the embedding
    - a numpy [float64] is a rational or NaN ([float]); rounding is not
      modelled;
    - a pandas [DataFrame] is its row count and its labelled columns, in
      order; labels may repeat, as in pandas;
    - a Python exception is a value of [exn]; a method of the calculator
      runs in a state-and-exception monad over the calculator's fields,
      so that what was assigned before a [raise] stays assigned;
    - scikit-learn, category_encoders, numpy and pandas kernels, and the
      modules of the package that the two files import ([nannyml.chunk],
      [nannyml.base], [nannyml.plots]), are the fields of [Backend]. *)

From Stdlib Require Import String Ascii ZArith QArith Lia Lqa Bool Arith List.
Import ListNotations.
Close Scope Q_scope.
Open Scope list_scope.

Set Implicit Arguments.

(* ================================================================== *)
(** ** Python values *)

(** [np.float64], with [None] for NaN. *)
Definition float := option Q.

Definition nan : float := None.

Definition fadd (a b : float) : float :=
  match a, b with Some x, Some y => Some (x + y)%Q | _, _ => None end.

Definition fsub (a b : float) : float :=
  match a, b with Some x, Some y => Some (x - y)%Q | _, _ => None end.

Definition fmul (a b : float) : float :=
  match a, b with Some x, Some y => Some (x * y)%Q | _, _ => None end.

Definition Qltb (x y : Q) : bool := negb (Qle_bool y x).

(** [a > b] and [a < b]: every comparison with NaN is false. *)
Definition fgt (a b : float) : bool :=
  match a, b with Some x, Some y => Qltb y x | _, _ => false end.

Definition flt (a b : float) : bool :=
  match a, b with Some x, Some y => Qltb x y | _, _ => false end.

(** Numeric equality of two floats (NaN equals nothing). *)
Definition feq (a b : float) : Prop :=
  match a, b with Some x, Some y => (x == y)%Q | _, _ => False end.

(** [a <= b] as a proposition (false on NaN). *)
Definition fle (a b : float) : Prop :=
  match a, b with Some x, Some y => (x <= y)%Q | _, _ => False end.

(** The content of one cell of a data set. *)
Inductive cell : Type :=
| Num (x : float)
| Str (s : string).

(** The exceptions that reach the caller of the two modules. *)
Inductive exn : Type :=
| InvalidArgumentsException (msg : string)
| CalculatorNotFittedException (msg : string)
| NotFittedError
| AttributeError
| TypeError
| ValueError
| KeyError.

Inductive result (A : Type) : Type :=
| Ok (a : A)
| Raise (e : exn).

Arguments Ok {A} a.
Arguments Raise {A} e.

Definition rbind {A B} (r : result A) (k : A -> result B) : result B :=
  match r with
  | Ok a => k a
  | Raise e => Raise e
  end.

Declare Scope result_scope.
Delimit Scope result_scope with result.
Notation "x <- r ;; k" := (rbind r (fun x => k))
  (at level 61, r at next level, right associativity) : result_scope.

Fixpoint mapM {A B} (f : A -> result B) (l : list A) : result (list B) :=
  match l with
  | [] => Ok []
  | a :: l' =>
      (b <- f a ;; bs <- mapM f l' ;; Ok (b :: bs))%result
  end.

(* ================================================================== *)
(** ** Data frames *)

Definition column := list cell.

Record DataFrame : Type := {
  nrows : nat;
  cols : list (string * column)
}.

(** [df.columns] *)
Definition columns (df : DataFrame) : list string := map fst (cols df).

(** [df.empty]: an axis of length zero. *)
Definition empty (df : DataFrame) : bool :=
  (nrows df =? 0) || (length (cols df) =? 0).

(** Every column carrying the label, in frame order. *)
Definition lookup_all (name : string) (cs : list (string * column))
  : list column :=
  map snd (filter (fun c => String.eqb (fst c) name) cs).

(** [df[names]] for a list of labels: the matching columns in the order
    of [names]; a label the frame lacks is a [KeyError]. *)
Fixpoint getitem_cols (cs : list (string * column)) (names : list string)
  : result (list column) :=
  match names with
  | [] => Ok []
  | n :: ns =>
      match lookup_all n cs with
      | [] => Raise KeyError
      | found => (rest <- getitem_cols cs ns ;; Ok (found ++ rest))%result
      end
  end.

Definition getitem (df : DataFrame) (names : list string)
  : result (list column) :=
  getitem_cols (cols df) names.

(** [df[name]] for one label. *)
Definition getcol (df : DataFrame) (name : string) : result column :=
  match lookup_all name (cols df) with
  | [] => Raise KeyError
  | c :: _ => Ok c
  end.

(** [df[name] = values]: overwrite the label where it occurs, append it
    otherwise. *)
Definition set_column (cs : list (string * column)) (name : string)
  (values : column) : list (string * column) :=
  if existsb (fun c => String.eqb (fst c) name) cs
  then map (fun c => if String.eqb (fst c) name then (name, values) else c) cs
  else cs ++ [(name, values)].

Fixpoint set_columns (cs : list (string * column)) (names : list string)
  (M : list column) : list (string * column) :=
  match names, M with
  | n :: ns, values :: M' => set_columns (set_column cs n values) ns M'
  | _, _ => cs
  end.

(** [df[names] = M] for a two-dimensional array [M], given by its columns:
    one column per label and one value per row, or a [ValueError]. *)
Definition setitem (df : DataFrame) (names : list string) (M : list column)
  : result DataFrame :=
  if (length M =? length names)
     && forallb (fun values => length values =? nrows df) M
  then Ok {| nrows := nrows df; cols := set_columns (cols df) names M |}
  else Raise ValueError.

(** [df.assign(name=values)] *)
Definition assign (df : DataFrame) (name : string) (values : column)
  : DataFrame :=
  {| nrows := nrows df; cols := set_column (cols df) name values |}.

(** [pd.DataFrame(M, columns=names)] *)
Definition frame_of_array (M : list column) (names : list string)
  : result DataFrame :=
  if length M =? length names
  then Ok {| nrows := match M with [] => 0 | c :: _ => length c end;
             cols := combine names M |}
  else Raise ValueError.

(** Fill a column with NaN up to [n] rows. *)
Definition pad (n : nat) (c : column) : column :=
  c ++ repeat (Num nan) (n - length c).

(** [pd.concat([a, b], axis=1)] of two frames indexed from zero: the
    columns of both, the shorter ones filled with NaN. *)
Definition concat_columns (a b : DataFrame) : DataFrame :=
  let n := Nat.max (nrows a) (nrows b) in
  {| nrows := n;
     cols := map (fun c => (fst c, pad n (snd c))) (cols a ++ cols b) |}.

(** [df.reset_index(drop=True)]: rows are addressed by position here, so
    the frame is unchanged. *)
Definition reset_index (df : DataFrame) : DataFrame := df.

(** Row [i] of an array given by its columns. *)
Definition row_at {A} (d : A) (i : nat) (M : list (list A)) : list A :=
  map (fun c => nth i c d) M.

Fixpoint map2 {A B C} (f : A -> B -> C) (l : list A) (l' : list B) : list C :=
  match l, l' with
  | a :: t, b :: t' => f a b :: map2 f t t'
  | _, _ => []
  end.

(** Well-formed frame: distinct labels, every column as long as the
    index. *)
Definition wf_frame (df : DataFrame) : Prop :=
  NoDup (columns df) /\
  Forall (fun c => length (snd c) = nrows df) (cols df).

(* ================================================================== *)
(** ** Fitted artifacts *)

(** A two-dimensional array, given by its columns. *)
Definition matrix := list column.
Definition fmatrix := list (list float).

(** A float array as it reads once stored in a frame. *)
Definition cells (X : fmatrix) : matrix := map (map Num) X.

(** [sklearn.impute.SimpleImputer]: its strategy and, once fitted, its
    [transform]. *)
Record SimpleImputer : Type := {
  strategy : string;
  imputer_fitted : option (matrix -> matrix)
}.

(** A fitted [category_encoders.CountEncoder]. *)
Record CountEncoder : Type := { encoder_transform : matrix -> matrix }.

(** A fitted [sklearn.preprocessing.StandardScaler]. *)
Record StandardScaler : Type := { scaler_transform : matrix -> fmatrix }.

(** A fitted [sklearn.decomposition.PCA]. *)
Record PCA : Type := {
  pca_transform : matrix -> fmatrix;
  pca_inverse_transform : fmatrix -> fmatrix
}.

(** The [n_components] argument of [PCA]: [Union[int, float, str]]. *)
Inductive n_components : Type :=
| NInt (k : Z)
| NFloat (q : Q)
| NStr (s : string).

(** [imputer.transform(X)]: scikit-learn refuses an estimator that was
    not fitted. *)
Definition imputer_transform (imputer : SimpleImputer) (X : matrix)
  : result matrix :=
  match imputer_fitted imputer with
  | None => Raise NotFittedError
  | Some f => Ok (f X)
  end.

(** Attribute access on an artifact that may still be [None]. *)
Definition attr {A} (o : option A) : result A :=
  match o with
  | None => Raise AttributeError
  | Some a => Ok a
  end.

(** [nannyml.chunk.Chunk] *)
Module Chunk.
Record t : Type := {
  key : string;
  start_index : Z;
  end_index : Z;
  start_datetime : Z;
  end_datetime : Z;
  period : string;
  is_transition : bool;
  data : DataFrame
}.
End Chunk.

(** [nannyml.chunk.Chunker]: [split(data, columns, minimum_chunk_size,
    timestamp_column_name)]; an argument the caller leaves out is
    [None]. *)
Record Chunker : Type := {
  split : DataFrame -> option (list string) -> option Z -> string
          -> list Chunk.t
}.

(** One row of the result table. *)
Record Row : Type := {
  key : string;
  start_index : Z;
  end_index : Z;
  start_date : Z;
  end_date : Z;
  period : string;
  reconstruction_error : float;
  lower_threshold : option float;
  upper_threshold : option float;
  alert : bool
}.

(** The dictionary built for one chunk, before the threshold and alert
    columns are added. *)
Record record : Type := {
  rec_key : string;
  rec_start_index : Z;
  rec_end_index : Z;
  rec_start_date : Z;
  rec_end_date : Z;
  rec_period : string;
  rec_reconstruction_error : float
}.

(** What the two modules take from outside: numeric kernels of numpy and
    pandas, the estimators' [fit], and the parts of the package that are
    imported from [nannyml.base], [nannyml.chunk] and [nannyml.plots]. *)
Class Backend : Type := {
  (** [np.linalg.norm(row)] *)
  np_linalg_norm : list float -> float;
  (** [Series.mean()], [Series.std()] *)
  series_mean : column -> float;
  series_std : column -> float;
  (** [imputer.fit(X)] for an imputer with the given strategy *)
  SimpleImputer_fit : string -> matrix -> matrix -> matrix;
  (** [CountEncoder(cols=cols, normalize=True).fit(X)] *)
  CountEncoder_fit : list string -> matrix -> CountEncoder;
  (** [StandardScaler().fit(X)] *)
  StandardScaler_fit : matrix -> StandardScaler;
  (** [PCA(n_components=n, random_state=seed).fit(X)] *)
  PCA_fit : n_components -> Z -> matrix -> PCA;
  (** the chunker that [AbstractCalculator.__init__] stores *)
  get_chunker : option Z -> option Z -> option string -> option Chunker
                -> Chunker;
  (** [nannyml.base._split_features_by_type]: continuous, categorical *)
  _split_features_by_type : DataFrame -> list string
                            -> list string * list string;
  (** [plotly.graph_objects.Figure] and [nannyml.plots._step_plot], as a
      function of the table and of the separator flag (its other
      arguments are constants) *)
  Figure : Type;
  _step_plot : list Row -> bool -> Figure
}.

(* ================================================================== *)
(** ** Reconstruction error of one batch *)

Definition cell_sub (a b : cell) : result float :=
  match a, b with
  | Num x, Num y => Ok (fsub x y)
  | _, _ => Raise TypeError
  end.

Definition column_sub (a b : column) : result (list float) :=
  mapM (fun p => cell_sub (fst p) (snd p)) (combine a b).

(** [x1.subtract(x2)] for two frames with the same labels and index. *)
Definition frame_sub (x1 x2 : matrix) : result fmatrix :=
  mapM (fun p => column_sub (fst p) (snd p)) (combine x1 x2).

(** [f'rf_{col}']: the label of the reconstructed copy of a feature. *)
Definition rf (col : string) : string := ("rf_" ++ col)%string.

(** [pca.inverse_transform(pca.transform(X))] *)
Definition reconstruct (pca : PCA) (X : matrix) : fmatrix :=
  pca_inverse_transform pca (pca_transform pca X).

(** A transformation of arrays with [k] columns that keeps the number of
    columns and the number of rows. *)
Definition preserves_shape_on {A C} (k : nat)
  (f : list (list A) -> list (list C)) : Prop :=
  forall n X, length X = k -> Forall (fun v => length v = n) X ->
    length (f X) = k /\ Forall (fun v => length v = n) (f X).

Section Reconstruction.
Context {B : Backend}.

(** [_calculate_distance]: setting [x2.columns] to the labels of [x1] is a
    [ValueError] when the two selections differ in width. *)
Definition _calculate_distance (df : DataFrame)
  (features_preprocessed features_reconstructed : list string)
  : result (list float) :=
  (x1 <- getitem df features_preprocessed ;;
   x2 <- getitem df features_reconstructed ;;
   if length x2 =? length x1 then
     x <- frame_sub x1 x2 ;;
     Ok (map (fun i => np_linalg_norm (row_at nan i x)) (seq 0 (nrows df)))
   else Raise ValueError)%result.

Definition _calculate_reconstruction_error_for_data
  (feature_column_names : list string)
  (categorical_feature_column_names : list string)
  (continuous_feature_column_names : list string)
  (data : DataFrame)
  (encoder : option CountEncoder)
  (scaler : option StandardScaler)
  (pca : option PCA)
  (imputer_categorical imputer_continuous : SimpleImputer)
  : result float :=
  (let data := reset_index data in
   data <- (if 0 <? length categorical_feature_column_names then
              X <- getitem data categorical_feature_column_names ;;
              T <- imputer_transform imputer_categorical X ;;
              setitem data categorical_feature_column_names T
            else Ok data) ;;
   data <- (if 0 <? length continuous_feature_column_names then
              X <- getitem data continuous_feature_column_names ;;
              T <- imputer_transform imputer_continuous X ;;
              setitem data continuous_feature_column_names T
            else Ok data) ;;
   enc <- attr encoder ;;
   X <- getitem data feature_column_names ;;
   data <- setitem data feature_column_names (encoder_transform enc X) ;;
   sc <- attr scaler ;;
   X <- getitem data feature_column_names ;;
   data <- setitem data feature_column_names (cells (scaler_transform sc X)) ;;
   p <- attr pca ;;
   X <- getitem data feature_column_names ;;
   let reduced_data := pca_transform p X in
   let reconstructed := pca_inverse_transform p reduced_data in
   let reconstructed_feature_column_names := map rf feature_column_names in
   reconstructed_data <-
     frame_of_array (cells reconstructed) reconstructed_feature_column_names ;;
   let data := concat_columns data reconstructed_data in
   rc_error <- _calculate_distance data feature_column_names
                 reconstructed_feature_column_names ;;
   let data := assign data "rc_error" (map Num rc_error) in
   res <- getcol data "rc_error" ;;
   Ok (series_mean res))%result.

(** *** The same computation, as the specification words it

    impute, frequency-encode, standardize, project, reconstruct, take
    the row-wise Euclidean distance between the standardized vector and
    its reconstruction, return the mean over the rows. *)

Definition impute (categorical continuous : list string)
  (imputer_categorical imputer_continuous : matrix -> matrix)
  (batch : DataFrame) : result DataFrame :=
  (batch <- (match categorical with
             | [] => Ok batch
             | _ => X <- getitem batch categorical ;;
                    setitem batch categorical (imputer_categorical X)
             end) ;;
   match continuous with
   | [] => Ok batch
   | _ => X <- getitem batch continuous ;;
          setitem batch continuous (imputer_continuous X)
   end)%result.

Definition euclidean_distance (u v : list float) : float :=
  np_linalg_norm (map2 fsub u v).

Definition mean_row_distance (n : nat) (standardized reconstruction : fmatrix)
  : float :=
  series_mean
    (map (fun i => Num (euclidean_distance (row_at nan i standardized)
                                           (row_at nan i reconstruction)))
         (seq 0 n)).

Definition reconstruction_error_spec
  (features categorical continuous : list string)
  (imputer_categorical imputer_continuous : matrix -> matrix)
  (encoder : CountEncoder) (scaler : StandardScaler) (pca : PCA)
  (batch : DataFrame) : result float :=
  (imputed <- impute categorical continuous
                imputer_categorical imputer_continuous batch ;;
   raw <- getitem imputed features ;;
   let encoded := encoder_transform encoder raw in
   let standardized := scaler_transform scaler encoded in
   let projected := pca_transform pca (cells standardized) in
   let reconstruction := pca_inverse_transform pca projected in
   Ok (mean_row_distance (nrows batch) standardized reconstruction))%result.

End Reconstruction.

(* ================================================================== *)
(** ** The calculator *)

(** The container handed over as [feature_column_names].  The annotation
    is [List[str]]; a numpy array of labels supports the same uses, and
    the two differ where the names are subscripted by a boolean mask. *)
Inductive names : Type :=
| PyList (l : list string)
| NdArray (l : list string).

Definition elements (ns : names) : list string :=
  match ns with PyList l | NdArray l => l end.

(** [np.isin(ns, labels)] *)
Definition np_isin (ns : names) (labels : list string) : list bool :=
  map (fun n => existsb (String.eqb n) labels) (elements ns).

(** [ns[mask]]: an array keeps the entries under a true flag; a list
    accepts integers and slices only, and a boolean array converts to
    neither, which is a [TypeError]. *)
Definition mask_getitem (ns : names) (mask : list bool)
  : result (list string) :=
  match ns with
  | PyList _ => Raise TypeError
  | NdArray l =>
      Ok (map fst (filter (fun p => snd p) (combine l mask)))
  end.

(** [str] of an array of labels: [['a' 'b']]. *)
Definition np_str (l : list string) : string :=
  ("[" ++ String.concat " " (map (fun s => "'" ++ s ++ "'") l) ++ "]")%string.

(** The instance attributes set by [__init__]. *)
Record Calculator : Type := {
  chunker : Chunker;
  feature_column_names : names;
  continuous_feature_column_names : list string;
  categorical_feature_column_names : list string;
  timestamp_column_name : string;
  _n_components : n_components;
  _scaler : option StandardScaler;
  _encoder : option CountEncoder;
  _pca : option PCA;
  _upper_alert_threshold : option float;
  _lower_alert_threshold : option float;
  _imputer_categorical : SimpleImputer;
  _imputer_continuous : SimpleImputer;
  previous_reference_results : option (list Row)
}.

(** Assignments to [self]. *)
Definition set_feature_split (cont cat : list string) (c : Calculator)
  : Calculator :=
  {| chunker := chunker c;
     feature_column_names := feature_column_names c;
     continuous_feature_column_names := cont;
     categorical_feature_column_names := cat;
     timestamp_column_name := timestamp_column_name c;
     _n_components := _n_components c;
     _scaler := _scaler c;
     _encoder := _encoder c;
     _pca := _pca c;
     _upper_alert_threshold := _upper_alert_threshold c;
     _lower_alert_threshold := _lower_alert_threshold c;
     _imputer_categorical := _imputer_categorical c;
     _imputer_continuous := _imputer_continuous c;
     previous_reference_results := previous_reference_results c |}.

Definition set_imputer_categorical (i : SimpleImputer) (c : Calculator)
  : Calculator :=
  {| chunker := chunker c;
     feature_column_names := feature_column_names c;
     continuous_feature_column_names := continuous_feature_column_names c;
     categorical_feature_column_names := categorical_feature_column_names c;
     timestamp_column_name := timestamp_column_name c;
     _n_components := _n_components c;
     _scaler := _scaler c;
     _encoder := _encoder c;
     _pca := _pca c;
     _upper_alert_threshold := _upper_alert_threshold c;
     _lower_alert_threshold := _lower_alert_threshold c;
     _imputer_categorical := i;
     _imputer_continuous := _imputer_continuous c;
     previous_reference_results := previous_reference_results c |}.

Definition set_imputer_continuous (i : SimpleImputer) (c : Calculator)
  : Calculator :=
  {| chunker := chunker c;
     feature_column_names := feature_column_names c;
     continuous_feature_column_names := continuous_feature_column_names c;
     categorical_feature_column_names := categorical_feature_column_names c;
     timestamp_column_name := timestamp_column_name c;
     _n_components := _n_components c;
     _scaler := _scaler c;
     _encoder := _encoder c;
     _pca := _pca c;
     _upper_alert_threshold := _upper_alert_threshold c;
     _lower_alert_threshold := _lower_alert_threshold c;
     _imputer_categorical := _imputer_categorical c;
     _imputer_continuous := i;
     previous_reference_results := previous_reference_results c |}.

Definition set_artifacts (e : CountEncoder) (s : StandardScaler) (p : PCA)
  (c : Calculator) : Calculator :=
  {| chunker := chunker c;
     feature_column_names := feature_column_names c;
     continuous_feature_column_names := continuous_feature_column_names c;
     categorical_feature_column_names := categorical_feature_column_names c;
     timestamp_column_name := timestamp_column_name c;
     _n_components := _n_components c;
     _scaler := Some s;
     _encoder := Some e;
     _pca := Some p;
     _upper_alert_threshold := _upper_alert_threshold c;
     _lower_alert_threshold := _lower_alert_threshold c;
     _imputer_categorical := _imputer_categorical c;
     _imputer_continuous := _imputer_continuous c;
     previous_reference_results := previous_reference_results c |}.

Definition set_alert_thresholds (upper lower : float) (c : Calculator)
  : Calculator :=
  {| chunker := chunker c;
     feature_column_names := feature_column_names c;
     continuous_feature_column_names := continuous_feature_column_names c;
     categorical_feature_column_names := categorical_feature_column_names c;
     timestamp_column_name := timestamp_column_name c;
     _n_components := _n_components c;
     _scaler := _scaler c;
     _encoder := _encoder c;
     _pca := _pca c;
     _upper_alert_threshold := Some upper;
     _lower_alert_threshold := Some lower;
     _imputer_categorical := _imputer_categorical c;
     _imputer_continuous := _imputer_continuous c;
     previous_reference_results := previous_reference_results c |}.

Definition set_previous_reference_results (t : option (list Row))
  (c : Calculator) : Calculator :=
  {| chunker := chunker c;
     feature_column_names := feature_column_names c;
     continuous_feature_column_names := continuous_feature_column_names c;
     categorical_feature_column_names := categorical_feature_column_names c;
     timestamp_column_name := timestamp_column_name c;
     _n_components := _n_components c;
     _scaler := _scaler c;
     _encoder := _encoder c;
     _pca := _pca c;
     _upper_alert_threshold := _upper_alert_threshold c;
     _lower_alert_threshold := _lower_alert_threshold c;
     _imputer_categorical := _imputer_categorical c;
     _imputer_continuous := _imputer_continuous c;
     previous_reference_results := t |}.

(** *** Methods: state and exceptions

    A method maps the fields of [self] to the fields after the call and
    either a value or the exception raised; the fields assigned before
    the exception keep their new value. *)
Definition method (A : Type) : Type := Calculator -> Calculator * result A.

Definition ret {A} (a : A) : method A := fun self => (self, Ok a).

Definition raise {A} (e : exn) : method A := fun self => (self, Raise e).

Definition bind {A B} (m : method A) (k : A -> method B) : method B :=
  fun self =>
    match m self with
    | (self', Ok a) => k a self'
    | (self', Raise e) => (self', Raise e)
    end.

Definition lift {A} (r : result A) : method A := fun self => (self, r).

Definition read {A} (field : Calculator -> A) : method A :=
  fun self => (self, Ok (field self)).

Definition update (f : Calculator -> Calculator) : method unit :=
  fun self => (f self, Ok tt).

Declare Scope method_scope.
Delimit Scope method_scope with method.
Notation "x <- m ;; k" := (bind m (fun x => k))
  (at level 61, m at next level, right associativity) : method_scope.
Notation "m ;; k" := (bind m (fun _ => k))
  (at level 61, right associativity) : method_scope.

(** [int(20 * np.power(len(features), 5 / 6))], in exact arithmetic: the
    integer part of the sixth root of [20^6 * n^5]. *)
Fixpoint floor_root6_upto (bound : nat) (m : Z) : Z :=
  match bound with
  | O => 0
  | S b =>
      if (Z.of_nat (S b) ^ 6 <=? m)%Z then Z.of_nat (S b)
      else floor_root6_upto b m
  end.

Definition _minimum_chunk_size (features : list string) : Z :=
  let n := Z.of_nat (length features) in
  floor_root6_upto (20 * length features) (64000000 * n ^ 5)%Z.

(** The lambda of [_add_alert_flag] on one row.  [or] evaluates its right
    operand only when the left one is false; ordering a float against
    [None] is a [TypeError]. *)
Definition alert_of (error : float) (upper_threshold lower_threshold : option float)
  : result bool :=
  match upper_threshold with
  | None => Raise TypeError
  | Some upper =>
      if fgt error upper then Ok true
      else match lower_threshold with
           | None => Raise TypeError
           | Some lower => if flt error lower then Ok true else Ok false
           end
  end.

Definition _add_alert_flag (drift_result : list record)
  (upper_threshold lower_threshold : option float) : result (list bool) :=
  mapM (fun row => alert_of (rec_reconstruction_error row)
                     upper_threshold lower_threshold) drift_result.

(** The result table: the records, the two threshold columns and the
    alert column. *)
Definition make_row (lower upper : option float) (r : record) (flag : bool)
  : Row :=
  {| key := rec_key r;
     start_index := rec_start_index r;
     end_index := rec_end_index r;
     start_date := rec_start_date r;
     end_date := rec_end_date r;
     period := rec_period r;
     reconstruction_error := rec_reconstruction_error r;
     lower_threshold := lower;
     upper_threshold := upper;
     alert := flag |}.

Definition no_rows_message : string :=
  "data contains no rows. Please provide a valid data set.".

Definition missing_columns_message (missing_columns : list string) : string :=
  ("data does not contain columns '" ++ np_str missing_columns ++ "'.")%string.

(** [self.feature_column_names[~np.isin(self.feature_column_names,
    data.columns)]] *)
Definition missing_columns (ns : names) (data : DataFrame)
  : result (list string) :=
  mask_getitem ns (map negb (np_isin ns (columns data))).

(** [DataReconstructionDriftCalculatorResult]: the table, and the
    calculator the object refers to.  The calculator is shared, not
    copied: [calculator] stands for the fields of that one object, and an
    assignment through it is an assignment to the calculator itself. *)
Record DataReconstructionDriftCalculatorResult : Type := {
  data : list Row;
  calculator : Calculator
}.

Definition calculator_name : string :=
  "multivariate_data_reconstruction_feature_drift".

Definition unknown_plot_kind_message (kind : string) : string :=
  ("unknown plot kind '" ++ kind ++ "'. " ++
   "Please provide on of: ['feature_drift', 'feature_distribution', " ++
   "'prediction_drift', 'prediction_distribution'].")%string.

(** [table['period'] = value] *)
Definition set_period (value : string) (r : Row) : Row :=
  {| key := key r;
     start_index := start_index r;
     end_index := end_index r;
     start_date := start_date r;
     end_date := end_date r;
     period := value;
     reconstruction_error := reconstruction_error r;
     lower_threshold := lower_threshold r;
     upper_threshold := upper_threshold r;
     alert := alert r |}.

Section Methods.
Context {B : Backend}.

Definition __init__
  (feature_column_names : names)
  (timestamp_column_name : string)
  (n_components : n_components)
  (chunk_size chunk_number : option Z)
  (chunk_period : option string)
  (chunker : option Chunker)
  (imputer_categorical imputer_continuous : option SimpleImputer)
  : result Calculator :=
  (imputer_categorical <-
     match imputer_categorical with
     | Some imputer =>
         if existsb (String.eqb (strategy imputer)) ["most_frequent"; "constant"]%string
         then Ok imputer
         else Raise ValueError
     | None => Ok {| strategy := "most_frequent"; imputer_fitted := None |}
     end ;;
   let imputer_continuous :=
     match imputer_continuous with
     | Some imputer => imputer
     | None => {| strategy := "mean"; imputer_fitted := None |}
     end in
   Ok {| chunker := get_chunker chunk_size chunk_number chunk_period chunker;
         feature_column_names := feature_column_names;
         continuous_feature_column_names := [];
         categorical_feature_column_names := [];
         timestamp_column_name := timestamp_column_name;
         _n_components := n_components;
         _scaler := None;
         _encoder := None;
         _pca := None;
         _upper_alert_threshold := None;
         _lower_alert_threshold := None;
         _imputer_categorical := imputer_categorical;
         _imputer_continuous := imputer_continuous;
         previous_reference_results := None |})%result.

(** The call that both comprehensions make for a chunk. *)
Definition reconstruction_error_of_chunk (self : Calculator) (chunk : Chunk.t)
  : result float :=
  _calculate_reconstruction_error_for_data
    (elements (feature_column_names self))
    (categorical_feature_column_names self)
    (continuous_feature_column_names self)
    (Chunk.data chunk)
    (_encoder self) (_scaler self) (_pca self)
    (_imputer_categorical self) (_imputer_continuous self).

(** [mean + 3 * std] and [mean - 3 * std] of a series of errors. *)
Definition three_sigma (reference_reconstruction_error : list float)
  : float * float :=
  let s := map Num reference_reconstruction_error in
  (fadd (series_mean s) (fmul (Some 3%Q) (series_std s)),
   fsub (series_mean s) (fmul (Some 3%Q) (series_std s))).

(** [_calculate_alert_thresholds]: [split] receives the data and the
    timestamp column, nothing else. *)
Definition _calculate_alert_thresholds (reference_data : DataFrame)
  : method (float * float) :=
  (self <- read (fun self => self) ;;
   let reference_chunks :=
     split (chunker self) reference_data None None
           (timestamp_column_name self) in
   reference_reconstruction_error <-
     lift (mapM (reconstruction_error_of_chunk self) reference_chunks) ;;
   ret (three_sigma reference_reconstruction_error))%method.

Definition record_of_chunk (self : Calculator) (chunk : Chunk.t)
  : result record :=
  (error <- reconstruction_error_of_chunk self chunk ;;
   Ok {| rec_key := Chunk.key chunk;
         rec_start_index := Chunk.start_index chunk;
         rec_end_index := Chunk.end_index chunk;
         rec_start_date := Chunk.start_datetime chunk;
         rec_end_date := Chunk.end_datetime chunk;
         rec_period := if Chunk.is_transition chunk then "analysis"
                       else Chunk.period chunk;
         rec_reconstruction_error := error |})%result.

(** Lines 217 to 252 of [_calculate]: the chunks, one record per chunk,
    the threshold columns and the alert column. *)
Definition result_table (self : Calculator) (data : DataFrame)
  : result (list Row) :=
  (let ns := feature_column_names self in
   let chunks :=
     split (chunker self) data
           (Some (elements ns))
           (Some (_minimum_chunk_size (elements ns)))
           (timestamp_column_name self) in
   res <- mapM (record_of_chunk self) chunks ;;
   let lower := _lower_alert_threshold self in
   let upper := _upper_alert_threshold self in
   flags <- _add_alert_flag res upper lower ;;
   Ok (map2 (make_row lower upper) res flags))%result.

(** [_calculate]; the value is the table of the result object, whose
    [calculator] is [self]. *)
Definition _calculate (data : DataFrame) : method (list Row) :=
  (if empty data then
     raise (InvalidArgumentsException no_rows_message)
   else
     let reference_data := data in
     ns <- read feature_column_names ;;
     missing <- lift (missing_columns ns reference_data) ;;
     if 0 <? length missing then
       raise (InvalidArgumentsException (missing_columns_message missing))
     else
       update (set_feature_split
                 (fst (_split_features_by_type data (elements ns)))
                 (snd (_split_features_by_type data (elements ns)))) ;;
       self <- read (fun self => self) ;;
       lift (result_table self data))%method.

(** [imputer.fit_transform(X)] on the imputer object held by [self]. *)
Definition fit_imputer (imputer : SimpleImputer) (X : matrix) : SimpleImputer :=
  {| strategy := strategy imputer;
     imputer_fitted := Some (SimpleImputer_fit (strategy imputer) X) |}.

Definition _fit (reference_data : DataFrame) : method unit :=
  (if empty reference_data then
     raise (InvalidArgumentsException no_rows_message)
   else
     ns <- read feature_column_names ;;
     missing <- lift (missing_columns ns reference_data) ;;
     if 0 <? length missing then
       raise (InvalidArgumentsException (missing_columns_message missing))
     else
       let features := elements ns in
       let continuous := fst (_split_features_by_type reference_data features) in
       let categorical := snd (_split_features_by_type reference_data features) in
       update (set_feature_split continuous categorical) ;;
       let imputed_reference_data := reference_data in
       imputed_reference_data <-
         (if 0 <? length categorical then
            X <- lift (getitem imputed_reference_data categorical) ;;
            imputer <- read _imputer_categorical ;;
            update (set_imputer_categorical (fit_imputer imputer X)) ;;
            lift (setitem imputed_reference_data categorical
                    (SimpleImputer_fit (strategy imputer) X X))
          else ret imputed_reference_data) ;;
       imputed_reference_data <-
         (if 0 <? length continuous then
            X <- lift (getitem imputed_reference_data continuous) ;;
            imputer <- read _imputer_continuous ;;
            update (set_imputer_continuous (fit_imputer imputer X)) ;;
            lift (setitem imputed_reference_data continuous
                    (SimpleImputer_fit (strategy imputer) X X))
          else ret imputed_reference_data) ;;
       X <- lift (getitem imputed_reference_data features) ;;
       let encoder := CountEncoder_fit features X in
       encoded_reference_data <-
         lift (setitem imputed_reference_data features
                 (encoder_transform encoder X)) ;;
       X <- lift (getitem encoded_reference_data features) ;;
       let scaler := StandardScaler_fit X in
       scaled_reference_data <-
         lift (frame_of_array (cells (scaler_transform scaler X)) features) ;;
       X <- lift (getitem scaled_reference_data features) ;;
       n <- read _n_components ;;
       let pca := PCA_fit n 16 X in
       update (set_artifacts encoder scaler pca) ;;
       thresholds <- _calculate_alert_thresholds reference_data ;;
       update (set_alert_thresholds (fst thresholds) (snd thresholds)) ;;
       res <- _calculate reference_data ;;
       update (set_previous_reference_results (Some res)))%method.

(** A caller that runs [calculate] on one data set after the other and
    keeps every outcome. *)
Fixpoint calculate_each (datasets : list DataFrame) (self : Calculator)
  : Calculator * list (result (list Row)) :=
  match datasets with
  | [] => (self, [])
  | d :: rest =>
      let (self', outcome) := _calculate d self in
      let (self'', outcomes) := calculate_each rest self' in
      (self'', outcome :: outcomes)
  end.

(** [_plot_drift]: the two assignments to ['period'] write into the
    tables they are given, the caller's and the calculator's. *)
Definition _plot_drift (data : list Row) (calculator : Calculator)
  (plot_reference : bool) : list Row * Calculator * result Figure :=
  let plot_period_separator := plot_reference in
  let data := map (set_period "analysis") data in
  if plot_reference then
    match previous_reference_results calculator with
    | None => (data, calculator, Raise TypeError)
    | Some reference_results =>
        let reference_results := map (set_period "reference") reference_results in
        let calculator :=
          set_previous_reference_results (Some reference_results) calculator in
        (data, calculator,
         Ok (_step_plot (reference_results ++ data) plot_period_separator))
    end
  else (data, calculator, Ok (_step_plot data plot_period_separator)).

(** [DataReconstructionDriftCalculatorResult.plot] *)
Definition plot (self : DataReconstructionDriftCalculatorResult)
  (kind : string) (plot_reference : bool)
  : DataReconstructionDriftCalculatorResult * result Figure :=
  if String.eqb kind "drift" then
    let '(table, calc, outcome) :=
      _plot_drift (data self) (calculator self) plot_reference in
    ({| data := table; calculator := calc |}, outcome)
  else
    (self, Raise (InvalidArgumentsException (unknown_plot_kind_message kind))).

End Methods.

(** [c'] is [c] up to the continuous / categorical split. *)
Definition up_to_feature_split (c c' : Calculator) : Prop :=
  c' = set_feature_split (continuous_feature_column_names c')
         (categorical_feature_column_names c') c.

(** The columns of a row that its chunk alone decides. *)
Definition labelled_as (chunk : Chunk.t) (row : Row) : Prop :=
  key row = Chunk.key chunk /\
  start_index row = Chunk.start_index chunk /\
  end_index row = Chunk.end_index chunk /\
  start_date row = Chunk.start_datetime chunk /\
  end_date row = Chunk.end_datetime chunk /\
  period row = (if Chunk.is_transition chunk then "analysis"%string
                else Chunk.period chunk).

(** The text [part] occurs in [msg]. *)
Definition mentions (msg part : string) : Prop :=
  exists before after, msg = (before ++ part ++ after)%string.

(* ================================================================== *)
(** ** A small backend to run the model on *)

Module Demo.

(** Rows [lo, lo + n) of a frame. *)
Definition slice_rows (lo n : nat) (df : DataFrame) : DataFrame :=
  {| nrows := Nat.min n (nrows df - lo);
     cols := map (fun c => (fst c, firstn n (skipn lo (snd c)))) (cols df) |}.

Definition chunk_of (tag : string) (lo n : nat) (df : DataFrame) : Chunk.t :=
  {| Chunk.key := tag;
     Chunk.start_index := Z.of_nat lo;
     Chunk.end_index := Z.of_nat (lo + n) - 1;
     Chunk.start_datetime := Z.of_nat lo;
     Chunk.end_datetime := Z.of_nat (lo + n) - 1;
     Chunk.period := "reference";
     Chunk.is_transition := false;
     Chunk.data := slice_rows lo n df |}.

Fixpoint chunks_from (fuel lo size : nat) (df : DataFrame) : list Chunk.t :=
  match fuel with
  | O => []
  | S fuel' =>
      if nrows df <=? lo then []
      else chunk_of "chunk" lo (Nat.min size (nrows df - lo)) df
           :: chunks_from fuel' (lo + size) size df
  end.

(** Chunks of [size] rows; when a minimum chunk size is passed, chunks
    of at least that many rows. *)
Definition size_chunker (size : nat) : Chunker :=
  {| split := fun df _ minimum_chunk_size _ =>
       let size := match minimum_chunk_size with
                   | Some m => Nat.max size (Z.to_nat m)
                   | None => size
                   end in
       chunks_from (nrows df) 0 (Nat.max 1 size) df |}.

(** A square root to three decimal places, from below. *)
Definition approx_sqrt (q : Q) : Q :=
  Qmake (Z.sqrt (Qnum q * Zpos (Qden q) * 1000000)) (Qden q * 1000).

Definition numbers (s : column) : list Q :=
  flat_map (fun v => match v with Num (Some q) => [q] | _ => [] end) s.

Definition Qsum (l : list Q) : Q := fold_right Qplus 0%Q l.

Definition Qmean (l : list Q) : Q := (Qsum l / inject_Z (Z.of_nat (length l)))%Q.

Definition mean (s : column) : float :=
  match numbers s with
  | [] => nan
  | l => Some (Qred (Qmean l))
  end.

(** Sample standard deviation (one degree of freedom less). *)
Definition sample_std (l : list Q) : Q :=
  let m := Qmean l in
  Qred (approx_sqrt
          (Qsum (map (fun x => (x - m) * (x - m))%Q l)
           / inject_Z (Z.of_nat (length l - 1)))).

Definition std (s : column) : float :=
  match numbers s with
  | [] | [_] => nan
  | l => Some (sample_std l)
  end.

Definition norm (row : list float) : float :=
  match mapM (fun x => match x with Some q => Ok q | None => Raise ValueError end)
             row with
  | Ok l => Some (Qred (approx_sqrt (Qsum (map (fun x => x * x)%Q l))))
  | Raise _ => nan
  end.

(** Replace NaN by zero. *)
Definition fill_zero (X : matrix) : matrix :=
  map (map (fun v => match v with Num None => Num (Some 0%Q) | _ => v end)) X.

Definition cell_eqb (a b : cell) : bool :=
  match a, b with
  | Num (Some x), Num (Some y) => Qeq_bool x y
  | Num None, Num None => true
  | Str s, Str t => String.eqb s t
  | _, _ => false
  end.

(** The share of the reference column that a value makes up. *)
Definition frequency (reference : column) (v : cell) : cell :=
  Num (Some (Qmake (Z.of_nat (length (filter (cell_eqb v) reference)))
                    (Pos.of_nat (length reference)))).

Definition count_encoder (reference : matrix) : CountEncoder :=
  {| encoder_transform := fun X =>
       map2 (fun ref c => map (frequency ref) c) reference X |}.

Definition standardize (reference c : column) : list float :=
  match mean reference, std reference with
  | Some m, Some s =>
      let scale := if Qeq_bool s 0 then 1%Q else s in
      map (fun v => match v with
                    | Num (Some x) => Some (Qred ((x - m) / scale))
                    | _ => nan
                    end) c
  | Some m, None =>
      map (fun v => match v with
                    | Num (Some x) => Some (Qred (x - m))
                    | _ => nan
                    end) c
  | _, _ => map (fun _ => nan) c
  end.

Definition standard_scaler (reference : matrix) : StandardScaler :=
  {| scaler_transform := fun X => map2 standardize reference X |}.

(** Projection on the first [k] coordinates. *)
Definition axis_projection (k : nat) : PCA :=
  {| pca_transform := fun X =>
       map (map (fun v => match v with Num x => x | Str _ => nan end))
           (firstn k X);
     pca_inverse_transform := fun Z =>
       Z ++ repeat (map (fun _ => Some 0%Q) (hd [] Z)) 1 |}.

Definition only_numbers (c : column) : bool :=
  forallb (fun v => match v with Num _ => true | Str _ => false end) c.

Definition split_by_type (df : DataFrame) (features : list string)
  : list string * list string :=
  partition (fun f => forallb only_numbers (lookup_all f (cols df))) features.

#[export] Instance backend : Backend := {|
  np_linalg_norm := norm;
  series_mean := mean;
  series_std := std;
  SimpleImputer_fit := fun _ _ => fill_zero;
  CountEncoder_fit := fun _ => count_encoder;
  StandardScaler_fit := standard_scaler;
  PCA_fit := fun _ _ _ => axis_projection 1;
  get_chunker := fun chunk_size _ _ chunker =>
    match chunker, chunk_size with
    | Some c, _ => c
    | None, Some n => size_chunker (Z.to_nat n)
    | None, None => size_chunker 2
    end;
  _split_features_by_type := split_by_type;
  Figure := list Row * bool;
  _step_plot := fun table separator => (table, separator)
|}.

Definition q (n : Z) : cell := Num (Some (inject_Z n)).

(** Two numeric features and a timestamp, four rows. *)
Definition reference_data : DataFrame :=
  {| nrows := 4;
     cols := [("x", [q 1; q 2; q 3; q 5]);
              ("y", [q 2; q 2; q 2; q 7]);
              ("timestamp", [q 0; q 1; q 2; q 3])]%string |}.

Definition features : list string := ["x"; "y"]%string.

(** [DataReconstructionDriftCalculator(feature_column_names=ns,
    timestamp_column_name='timestamp', n_components=1, chunk_size=2)] *)
Definition new_calculator (ns : names) : result Calculator :=
  __init__ ns "timestamp" (NInt 1) (Some 2%Z) None None None None None.

(** The calculator that this call constructs. *)
Definition unfitted (ns : names) : Calculator :=
  {| chunker := size_chunker 2;
     feature_column_names := ns;
     continuous_feature_column_names := [];
     categorical_feature_column_names := [];
     timestamp_column_name := "timestamp";
     _n_components := NInt 1;
     _scaler := None;
     _encoder := None;
     _pca := None;
     _upper_alert_threshold := None;
     _lower_alert_threshold := None;
     _imputer_categorical :=
       {| strategy := "most_frequent"; imputer_fitted := None |};
     _imputer_continuous := {| strategy := "mean"; imputer_fitted := None |};
     previous_reference_results := None |}.

(** The same calculator after [fit(reference_data)]. *)
Definition fitted : Calculator :=
  fst (_fit reference_data (unfitted (NdArray features))).

(** The columns of [reference_data], without a row. *)
Definition no_data : DataFrame :=
  {| nrows := 0;
     cols := [("x", []); ("y", []); ("timestamp", [])]%string |}.

(** Artifacts fitted by hand on the two feature columns. *)
Definition raw : matrix := [[q 1; q 2; q 3; q 5]; [q 2; q 2; q 2; q 7]].

Definition imputer : SimpleImputer :=
  {| strategy := "mean"; imputer_fitted := Some fill_zero |}.

Definition encoder : CountEncoder := count_encoder raw.

Definition scaler : StandardScaler :=
  standard_scaler (encoder_transform encoder raw).

Definition pca : PCA := axis_projection 1.

(** Analysis rows whose second feature takes a value the reference data
    never had. *)
Definition drifted_data : DataFrame :=
  {| nrows := 4;
     cols := [("x", [q 1; q 2; q 3; q 5]);
              ("y", [q 9; q 9; q 9; q 9]);
              ("timestamp", [q 4; q 5; q 6; q 7])]%string |}.

(** The table of [fitted.calculate(reference_data)], and the result
    object that holds it. *)
Definition reference_rows : list Row :=
  Eval vm_compute in
    match snd (_calculate reference_data fitted) with
    | Ok rows => rows
    | Raise _ => []
    end.

Definition reference_result : DataReconstructionDriftCalculatorResult :=
  {| data := reference_rows; calculator := fitted |}.

End Demo.


(* ================================================================== *)
(** ** Selection of feature names *)

Section SelectedFeatures.

(** [nannyml.metadata.base.Feature], of which only [column_name] is
    read. *)
Variable Feature : Type.
Variable column_name : Feature -> string.

(** A Python [set] of strings is held as its elements, each once.
    [list(s)] lists them in the set's iteration order, which the
    language leaves open: [list_of_set] is that arrangement. *)
Variable list_of_set : list string -> list string.

(** [set(l)] *)
Definition py_set (l : list string) : list string := nodup string_dec l.

(** [a & b] *)
Definition set_intersection (a b : list string) : list string :=
  filter (fun x => existsb (String.eqb x) b) a.

Definition _get_selected_feature_names (selected_features : list string)
  (features : list Feature) : list string :=
  let feature_column_names := map column_name features in
  list_of_set
    (set_intersection (py_set selected_features) (py_set feature_column_names)).

End SelectedFeatures.

(* ================================================================== *)
(** ** More inputs for the small backend *)

Module Cases.
Import Demo.

(** The calculator of [Demo], with chunks of four rows: the reference
    data make one chunk. *)
Definition one_chunk_calculator : Calculator :=
  {| chunker := size_chunker 4;
     feature_column_names := NdArray features;
     continuous_feature_column_names := [];
     categorical_feature_column_names := [];
     timestamp_column_name := "timestamp";
     _n_components := NInt 1;
     _scaler := None;
     _encoder := None;
     _pca := None;
     _upper_alert_threshold := None;
     _lower_alert_threshold := None;
     _imputer_categorical :=
       {| strategy := "most_frequent"; imputer_fitted := None |};
     _imputer_continuous := {| strategy := "mean"; imputer_fitted := None |};
     previous_reference_results := None |}.

Definition one_chunk_fitted : Calculator :=
  fst (_fit reference_data one_chunk_calculator).

(** Analysis rows whose second feature came in as text. *)
Definition text_data : DataFrame :=
  {| nrows := 4;
     cols := [("x", [q 1; q 2; q 3; q 5]);
              ("y", [Str "2"; Str "2"; Str "2"; Str "7"]);
              ("timestamp", [q 4; q 5; q 6; q 7])]%string |}.

(** A batch that already has a column labelled like a reconstructed
    feature. *)
Definition labelled_batch : DataFrame :=
  {| nrows := 4;
     cols := [("x", [q 1; q 2; q 3; q 5]);
              ("y", [q 2; q 2; q 2; q 7]);
              ("rf_x", [q 0; q 0; q 0; q 0])]%string |}.

(** A batch without the second feature. *)
Definition narrow_batch : DataFrame :=
  {| nrows := 4;
     cols := [("x", [q 1; q 2; q 3; q 5]);
              ("timestamp", [q 0; q 1; q 2; q 3])]%string |}.

(** A result object put around a calculator that was never fitted. *)
Definition orphan_result : DataReconstructionDriftCalculatorResult :=
  {| data := reference_rows; calculator := unfitted (NdArray features) |}.

(** A calculator that was never fitted and carries a feature split and
    thresholds from elsewhere. *)
Definition stale_calculator : Calculator :=
  set_feature_split ["y"]%string ["x"]%string
    (set_alert_thresholds (Some 1%Q) (Some 0%Q) (unfitted (NdArray features))).

(** The table of [one_chunk_fitted.calculate(drifted_data)]. *)
Definition one_chunk_rows : list Row :=
  Eval vm_compute in
    match snd (_calculate drifted_data one_chunk_fitted) with
    | Ok rows => rows
    | Raise _ => []
    end.

End Cases.

(* ================================================================== *)
(** * Properties *)

(** ** Frames *)

Section FrameFacts.

Ltac case_existsb :=
  match goal with
  | |- context [existsb ?f ?l] => destruct (existsb f l) eqn:E
  end.

Lemma lookup_all_app name a b :
  lookup_all name (a ++ b) = lookup_all name a ++ lookup_all name b.
Proof.
  unfold lookup_all. now rewrite filter_app, map_app.
Qed.

Lemma lookup_all_absent name cs :
  ~ In name (map fst cs) -> lookup_all name cs = [].
Proof.
  induction cs as [|[n v] cs IH]; simpl; intros H; [reflexivity|].
  unfold lookup_all in *. simpl.
  destruct (String.eqb_spec n name) as [->|Hne].
  - exfalso. apply H. now left.
  - apply IH. intros Hin. apply H. now right.
Qed.

Lemma lookup_all_present name cs :
  NoDup (map fst cs) -> In name (map fst cs) ->
  exists v, lookup_all name cs = [v] /\ In (name, v) cs.
Proof.
  induction cs as [|[n v] cs IH]; simpl; intros Hnd Hin; [contradiction|].
  inversion Hnd as [|? ? Hnotin Hnd']; subst.
  unfold lookup_all in *. simpl.
  destruct (String.eqb_spec n name) as [->|Hne].
  - exists v. split; [|now left].
    simpl. f_equal. now apply lookup_all_absent.
  - destruct Hin as [Heq|Hin]; [contradiction|].
    destruct (IH Hnd' Hin) as (w & Hw & Hin').
    exists w. split; [exact Hw|now right].
Qed.

Lemma existsb_label name (cs : list (string * column)) :
  existsb (fun c => String.eqb (fst c) name) cs = true <->
  In name (map fst cs).
Proof.
  rewrite existsb_exists, in_map_iff. split.
  - intros (c & Hin & Hc). apply String.eqb_eq in Hc. now exists c.
  - intros (c & Hc & Hin). exists c. split; [exact Hin|].
    rewrite Hc. apply String.eqb_refl.
Qed.

Lemma set_column_labels cs name values :
  In name (map fst cs) -> map fst (set_column cs name values) = map fst cs.
Proof.
  intros Hin. unfold set_column.
  apply existsb_label in Hin. rewrite Hin.
  rewrite map_map. apply map_ext_in. intros [n v] _. simpl.
  destruct (String.eqb_spec n name); simpl; congruence.
Qed.

Lemma set_column_lengths cs name values n :
  Forall (fun c => length (snd c) = n) cs -> length values = n ->
  Forall (fun c => length (snd c) = n) (set_column cs name values).
Proof.
  intros Hall Hlen. unfold set_column.
  case_existsb.
  - apply Forall_map. eapply Forall_impl; [|exact Hall].
    intros [m v] Hv. simpl in *. now destruct (String.eqb m name).
  - apply Forall_app. split; [exact Hall|]. now constructor.
Qed.

Lemma lookup_all_set_column_other name other cs values :
  other <> name ->
  lookup_all other (set_column cs name values) = lookup_all other cs.
Proof.
  intros Hne. unfold set_column.
  case_existsb.
  - clear E. unfold lookup_all.
    induction cs as [|[m v] cs IH]; simpl; [reflexivity|].
    destruct (String.eqb_spec m name) as [->|Hmn]; simpl.
    + destruct (String.eqb_spec name other); [congruence|]. exact IH.
    + destruct (String.eqb_spec m other); simpl; now rewrite IH.
  - rewrite lookup_all_app. unfold lookup_all at 2. simpl.
    destruct (String.eqb_spec name other); [congruence|].
    simpl. apply app_nil_r.
Qed.

Lemma lookup_all_overwrite name values cs :
  In name (map fst cs) ->
  exists rest : list column,
    lookup_all name
      (map (fun c : string * column =>
              if String.eqb (fst c) name then (name, values) else c) cs)
    = values :: rest /\
    (NoDup (map fst cs) -> rest = []).
Proof.
  induction cs as [|[m v] cs IH]; simpl; intros Hin; [contradiction|].
  unfold lookup_all in *. simpl.
  destruct (String.eqb_spec m name) as [->|Hmn]; simpl.
  - rewrite String.eqb_refl. simpl. eexists. split; [reflexivity|].
    intros Hnd. inversion Hnd as [|? ? Hnotin Hnd']; subst.
    assert (H : map (fun c : string * column =>
                       if String.eqb (fst c) name then (name, values) else c) cs
                = cs).
    { rewrite <- (map_id cs) at 2. apply map_ext_in. intros [k w] Hk. simpl.
      destruct (String.eqb_spec k name); [|reflexivity].
      subst. exfalso. apply Hnotin. apply in_map_iff. now exists (name, w). }
    rewrite H. now apply lookup_all_absent.
  - destruct (String.eqb_spec m name); [congruence|].
    destruct Hin as [Heq|Hin]; [contradiction|].
    destruct (IH Hin) as (rest & Hrest & Hnil).
    exists rest. split; [exact Hrest|].
    intros Hnd. apply Hnil. now inversion Hnd.
Qed.

Lemma lookup_all_set_column_same name cs values :
  NoDup (map fst cs) ->
  lookup_all name (set_column cs name values) = [values].
Proof.
  intros Hnd. unfold set_column. case_existsb.
  - apply existsb_label in E.
    destruct (@lookup_all_overwrite name values cs E) as (rest & Hrest & Hnil).
    rewrite Hrest, (Hnil Hnd). reflexivity.
  - rewrite lookup_all_app, lookup_all_absent.
    + unfold lookup_all. simpl. now rewrite String.eqb_refl.
    + intros Hin. apply existsb_label in Hin. congruence.
Qed.

Lemma set_columns_labels names : forall cs M,
  incl names (map fst cs) -> map fst (set_columns cs names M) = map fst cs.
Proof.
  induction names as [|n ns IH]; intros cs M Hincl; simpl; [reflexivity|].
  destruct M as [|v M]; [reflexivity|].
  assert (Hn : In n (map fst cs)) by (apply Hincl; now left).
  rewrite IH; [now apply set_column_labels|].
  rewrite set_column_labels by exact Hn.
  intros x Hx. apply Hincl. now right.
Qed.

Lemma set_columns_lengths names n : forall cs M,
  Forall (fun c => length (snd c) = n) cs ->
  Forall (fun v => length v = n) M ->
  Forall (fun c => length (snd c) = n) (set_columns cs names M).
Proof.
  induction names as [|m ns IH]; intros cs M Hcs HM; simpl; [exact Hcs|].
  destruct M as [|v M]; [exact Hcs|].
  inversion HM; subst.
  apply IH; [|assumption]. now apply set_column_lengths.
Qed.

Lemma lookup_all_set_columns_other other names : forall cs M,
  ~ In other names ->
  lookup_all other (set_columns cs names M) = lookup_all other cs.
Proof.
  induction names as [|n ns IH]; intros cs M Hnotin; simpl; [reflexivity|].
  destruct M as [|v M]; [reflexivity|].
  rewrite IH by (intros H; apply Hnotin; now right).
  apply lookup_all_set_column_other. intros ->. apply Hnotin. now left.
Qed.

(** Reading the labels just written returns what was written. *)
Lemma getitem_set_columns names : forall cs M,
  NoDup names -> NoDup (map fst cs) -> incl names (map fst cs) ->
  length M = length names ->
  getitem_cols (set_columns cs names M) names = Ok M.
Proof.
  induction names as [|n ns IH]; intros cs M Hnd Hcs Hincl Hlen.
  - destruct M; [reflexivity|discriminate].
  - destruct M as [|v M]; [discriminate|].
    inversion Hnd as [|? ? Hnotin Hnd']; subst.
    assert (Hn : In n (map fst cs)) by (apply Hincl; now left).
    assert (Hlab : map fst (set_column cs n v) = map fst cs)
      by now apply set_column_labels.
    assert (Hrest : getitem_cols (set_columns (set_column cs n v) ns M) ns = Ok M).
    { apply IH; try assumption.
      - now rewrite Hlab.
      - rewrite Hlab. intros x Hx. apply Hincl. now right.
      - simpl in Hlen. lia. }
    cbn [set_columns getitem_cols].
    rewrite lookup_all_set_columns_other by exact Hnotin.
    rewrite lookup_all_set_column_same by exact Hcs.
    rewrite Hrest. reflexivity.
Qed.

(** Selecting present labels of a well-formed frame: one column per
    label, each as long as the index. *)
Lemma getitem_cols_shape n cs names :
  NoDup (map fst cs) -> Forall (fun c => length (snd c) = n) cs ->
  incl names (map fst cs) ->
  exists X, getitem_cols cs names = Ok X /\ length X = length names /\
            Forall (fun v => length v = n) X.
Proof.
  intros Hnd Hall. induction names as [|m ns IH]; intros Hincl.
  - exists []. repeat split. constructor.
  - destruct IH as (X & HX & Hlen & Hsh).
    { intros x Hx. apply Hincl. now right. }
    destruct (@lookup_all_present m cs Hnd) as (v & Hv & Hin).
    { apply Hincl. now left. }
    exists (v :: X). simpl. rewrite Hv, HX. simpl.
    repeat split; [now rewrite Hlen|].
    constructor; [|exact Hsh].
    rewrite Forall_forall in Hall. exact (Hall _ Hin).
Qed.

Lemma getitem_cols_app_l a b names :
  (forall f, In f names -> ~ In f (map fst b)) ->
  getitem_cols (a ++ b) names = getitem_cols a names.
Proof.
  induction names as [|n ns IH]; intros H; simpl; [reflexivity|].
  rewrite lookup_all_app.
  rewrite (@lookup_all_absent n b) by (apply H; now left).
  rewrite app_nil_r, IH; [reflexivity|].
  intros f Hf. apply H. now right.
Qed.

Lemma getitem_cols_app_r a b names :
  (forall f, In f names -> ~ In f (map fst a)) ->
  getitem_cols (a ++ b) names = getitem_cols b names.
Proof.
  induction names as [|n ns IH]; intros H; simpl; [reflexivity|].
  rewrite lookup_all_app.
  rewrite (@lookup_all_absent n a) by (apply H; now left).
  simpl. rewrite IH; [reflexivity|].
  intros f Hf. apply H. now right.
Qed.

Lemma getitem_cols_combine names : forall M,
  NoDup names -> length M = length names ->
  getitem_cols (combine names M) names = Ok M.
Proof.
  induction names as [|n ns IH]; intros M Hnd Hlen.
  - destruct M; [reflexivity|discriminate].
  - destruct M as [|v M]; [discriminate|].
    inversion Hnd as [|? ? Hnotin Hnd']; subst.
    change (combine (n :: ns) (v :: M)) with ([(n, v)] ++ combine ns M).
    cbn [getitem_cols]. rewrite lookup_all_app.
    rewrite (@lookup_all_absent n (combine ns M)).
    + rewrite getitem_cols_app_r.
      * rewrite IH by (simpl in Hlen; auto with arith).
        unfold lookup_all. simpl. now rewrite String.eqb_refl.
      * intros f Hf [Heq|[]]. simpl in Heq. congruence.
    + intros Hin. apply Hnotin.
      apply in_map_iff in Hin. destruct Hin as ([k w] & Hk & Hin).
      simpl in Hk. subst. eapply in_combine_l; eauto.
Qed.

Lemma getcol_assign df name values :
  getcol (assign df name values) name = Ok values.
Proof.
  unfold getcol, assign, set_column. cbn [cols]. case_existsb.
  - apply existsb_label in E.
    destruct (@lookup_all_overwrite name values (cols df) E) as (rest & Hrest & _).
    now rewrite Hrest.
  - rewrite lookup_all_app, lookup_all_absent.
    + unfold lookup_all. simpl. now rewrite String.eqb_refl.
    + intros Hin. apply existsb_label in Hin. congruence.
Qed.

Lemma pad_full n c : length c = n -> pad n c = c.
Proof.
  intros <-. unfold pad. rewrite Nat.sub_diag. apply app_nil_r.
Qed.

Lemma concat_columns_aligned a b n :
  Forall (fun c => length (snd c) = n) (cols a) ->
  Forall (fun c => length (snd c) = n) (cols b) ->
  Nat.max (nrows a) (nrows b) = n ->
  concat_columns a b = {| nrows := n; cols := cols a ++ cols b |}.
Proof.
  intros Ha Hb Hn. unfold concat_columns. rewrite Hn. f_equal.
  rewrite <- (map_id (cols a ++ cols b)) at 2.
  apply map_ext_in. intros [m v] Hin. simpl.
  rewrite pad_full; [reflexivity|].
  apply in_app_or in Hin. rewrite Forall_forall in Ha, Hb.
  destruct Hin as [Hin|Hin]; [exact (Ha _ Hin)|exact (Hb _ Hin)].
Qed.

End FrameFacts.

(** ** Reconstruction error *)

Section ReconstructionFacts.
Context {B : Backend}.

Lemma column_sub_cells : forall a b,
  column_sub (map Num a) (map Num b) = Ok (map2 fsub a b).
Proof.
  unfold column_sub.
  induction a as [|x a IH]; intros [|y b]; simpl; try reflexivity.
  now rewrite IH.
Qed.

Lemma frame_sub_cells : forall S R,
  frame_sub (cells S) (cells R) = Ok (map2 (map2 fsub) S R).
Proof.
  unfold frame_sub, cells.
  induction S as [|a S IH]; intros [|b R]; simpl; try reflexivity.
  now rewrite column_sub_cells, IH.
Qed.

Lemma nth_map2_fsub i : forall a b,
  nth i (map2 fsub a b) nan = fsub (nth i a nan) (nth i b nan).
Proof.
  induction i as [|i IH]; intros [|x a] [|y b]; simpl; try reflexivity.
  - now destruct x.
  - now destruct (nth i a nan).
  - apply IH.
Qed.

(** A row of the difference is the difference of the rows. *)
Lemma row_at_sub i : forall S R,
  row_at nan i (map2 (map2 fsub) S R)
  = map2 fsub (row_at nan i S) (row_at nan i R).
Proof.
  unfold row_at.
  induction S as [|a S IH]; intros [|b R]; simpl; try reflexivity.
  now rewrite nth_map2_fsub, IH.
Qed.

Lemma cells_shape n (S : fmatrix) :
  Forall (fun v => length v = n) S ->
  Forall (fun v => length v = n) (cells S).
Proof.
  intros H. unfold cells. apply Forall_map.
  eapply Forall_impl; [|exact H]. intros v Hv. now rewrite length_map.
Qed.

Lemma forallb_lengths n (M : list column) :
  Forall (fun v => length v = n) M ->
  forallb (fun values => length values =? n) M = true.
Proof.
  intros H. apply forallb_forall. rewrite Forall_forall in H.
  intros v Hv. apply Nat.eqb_eq. now apply H.
Qed.

(** Writing an array of the right shape over labels the frame has. *)
Lemma setitem_present df names (M : list column) :
  wf_frame df -> incl names (columns df) ->
  length M = length names -> Forall (fun v => length v = nrows df) M ->
  exists df',
    setitem df names M = Ok df' /\ wf_frame df' /\
    columns df' = columns df /\ nrows df' = nrows df /\
    (NoDup names -> getitem df' names = Ok M).
Proof.
  intros [Hnd Hlen] Hincl HM Hsh.
  exists {| nrows := nrows df; cols := set_columns (cols df) names M |}.
  assert (Hlab : map fst (set_columns (cols df) names M) = columns df)
    by now apply set_columns_labels.
  unfold setitem. rewrite HM, Nat.eqb_refl, forallb_lengths by exact Hsh.
  repeat split; cbn [nrows cols]; try assumption.
  - unfold columns. cbn [cols]. now rewrite Hlab.
  - now apply set_columns_lengths.
  - intros Hn. unfold getitem. cbn [cols]. now apply getitem_set_columns.
Qed.

Lemma getitem_shape df names :
  wf_frame df -> incl names (columns df) ->
  exists X, getitem df names = Ok X /\ length X = length names /\
            Forall (fun v => length v = nrows df) X.
Proof.
  intros [Hnd Hlen] Hincl. now apply getitem_cols_shape.
Qed.

(** One imputation step. *)
Lemma impute_step df names f :
  wf_frame df -> incl names (columns df) ->
  preserves_shape_on (length names) f ->
  exists df',
    (X <- getitem df names ;; setitem df names (f X))%result = Ok df' /\
    wf_frame df' /\ columns df' = columns df /\ nrows df' = nrows df.
Proof.
  intros Hwf Hincl Hf.
  destruct (getitem_shape Hwf Hincl) as (X & HX & Hlen & Hsh).
  destruct (Hf _ _ Hlen Hsh) as [Hlen' Hsh'].
  destruct (@setitem_present df names (f X) Hwf Hincl Hlen' Hsh')
    as (df' & Hset & Hwf' & Hcols & Hrows & _).
  exists df'. rewrite HX. simpl. auto.
Qed.

Lemma impute_total categorical continuous f_cat f_cont batch :
  wf_frame batch ->
  incl categorical (columns batch) -> incl continuous (columns batch) ->
  preserves_shape_on (length categorical) f_cat ->
  preserves_shape_on (length continuous) f_cont ->
  exists imputed,
    impute categorical continuous f_cat f_cont batch = Ok imputed /\
    wf_frame imputed /\ columns imputed = columns batch /\
    nrows imputed = nrows batch.
Proof.
  intros Hwf Hcat Hcont Hfc Hfn. unfold impute.
  assert (H1 : exists d1,
    match categorical with
    | [] => Ok batch
    | _ => (X <- getitem batch categorical ;;
            setitem batch categorical (f_cat X))%result
    end = Ok d1 /\ wf_frame d1 /\ columns d1 = columns batch /\
    nrows d1 = nrows batch).
  { destruct categorical as [|c cs]; [now exists batch|].
    now apply impute_step. }
  destruct H1 as (d1 & -> & Hwf1 & Hc1 & Hr1). cbn [rbind].
  destruct continuous as [|c cs].
  - now exists d1.
  - destruct (@impute_step d1 (c :: cs) f_cont Hwf1) as (d2 & H2 & Hwf2 & Hc2 & Hr2);
      [now rewrite Hc1|exact Hfn|].
    exists d2. rewrite H2. repeat split; try apply Hwf2; congruence.
Qed.

(** The two guarded imputation statements of the source are [impute]. *)
Lemma guarded_imputation categorical continuous ic_cat ic_cont f_cat f_cont batch :
  imputer_fitted ic_cat = Some f_cat ->
  imputer_fitted ic_cont = Some f_cont ->
  (d <- (if 0 <? length categorical then
           X <- getitem batch categorical ;;
           T <- imputer_transform ic_cat X ;;
           setitem batch categorical T
         else Ok batch) ;;
   if 0 <? length continuous then
     X <- getitem d continuous ;;
     T <- imputer_transform ic_cont X ;;
     setitem d continuous T
   else Ok d)%result
  = impute categorical continuous f_cat f_cont batch.
Proof.
  intros Hc Hn. unfold impute, imputer_transform. rewrite Hc, Hn.
  destruct categorical as [|c cs]; cbn [length Nat.ltb Nat.leb rbind].
  - destruct continuous; reflexivity.
  - destruct (getitem batch (c :: cs)) as [X|e]; cbn [rbind]; [|reflexivity].
    destruct (setitem batch (c :: cs) (f_cat X)) as [d|e]; cbn [rbind];
      [|reflexivity].
    destruct continuous; reflexivity.
Qed.

Lemma rf_labels_distinct features : NoDup features -> NoDup (map rf features).
Proof.
  induction 1 as [|f fs Hnotin Hnd IH]; simpl; constructor; [|exact IH].
  intros Hin. apply in_map_iff in Hin. destruct Hin as (g & Hg & Hin).
  unfold rf in Hg. simpl in Hg. injection Hg as ->. contradiction.
Qed.

End ReconstructionFacts.

Section ReconstructionSteps.
Context {B : Backend}.

Lemma guarded_imputation_then {A} categorical continuous ic_cat ic_cont
  f_cat f_cont batch (k : DataFrame -> result A) :
  imputer_fitted ic_cat = Some f_cat ->
  imputer_fitted ic_cont = Some f_cont ->
  (d <- (if 0 <? length categorical then
           X <- getitem batch categorical ;;
           T <- imputer_transform ic_cat X ;;
           setitem batch categorical T
         else Ok batch) ;;
   d' <- (if 0 <? length continuous then
            X <- getitem d continuous ;;
            T <- imputer_transform ic_cont X ;;
            setitem d continuous T
          else Ok d) ;;
   k d')%result
  = (d <- impute categorical continuous f_cat f_cont batch ;; k d)%result.
Proof.
  intros Hc Hn.
  rewrite <- (@guarded_imputation categorical continuous ic_cat ic_cont
               f_cat f_cont batch Hc Hn).
  destruct (if 0 <? length categorical then _ else _); reflexivity.
Qed.

Lemma frame_of_array_aligned (M : list column) names n :
  length M = length names -> Forall (fun v => length v = n) M ->
  exists df, frame_of_array M names = Ok df /\
             cols df = combine names M /\
             Forall (fun c => length (snd c) = n) (cols df) /\
             Nat.max n (nrows df) = n.
Proof.
  intros Hlen Hsh. unfold frame_of_array.
  rewrite Hlen, Nat.eqb_refl. eexists. split; [reflexivity|].
  cbn [cols nrows]. repeat split.
  - apply Forall_forall. intros [m v] Hin. simpl.
    rewrite Forall_forall in Hsh. apply Hsh. eapply in_combine_r; eauto.
  - destruct M as [|v M]; [apply Nat.max_0_r|].
    inversion Hsh; subst. apply Nat.max_id.
Qed.

End ReconstructionSteps.

Section ReconstructionTheorem.
Context {B : Backend}.

(** C1.  On a non-empty, well-formed batch that holds the feature
    columns, with fitted artifacts that keep the shape of what they are
    given, the reconstruction-error function returns, and what it
    returns is the value of the step sequence: impute, frequency-encode,
    standardize, project, reconstruct, take the Euclidean distance between
    each standardized row and its reconstruction, average over the rows
    of the batch. *)
Theorem reconstruction_error_follows_the_steps
  (features categorical continuous : list string) (batch : DataFrame)
  (encoder : CountEncoder) (scaler : StandardScaler) (pca : PCA)
  (imputer_categorical imputer_continuous : SimpleImputer)
  (f_cat f_cont : matrix -> matrix) :
  wf_frame batch -> 0 < nrows batch ->
  NoDup features -> incl features (columns batch) ->
  incl categorical (columns batch) -> incl continuous (columns batch) ->
  (forall f, In f features -> ~ In (rf f) (columns batch)) ->
  imputer_fitted imputer_categorical = Some f_cat ->
  imputer_fitted imputer_continuous = Some f_cont ->
  preserves_shape_on (length categorical) f_cat ->
  preserves_shape_on (length continuous) f_cont ->
  preserves_shape_on (length features) (encoder_transform encoder) ->
  preserves_shape_on (length features) (scaler_transform scaler) ->
  preserves_shape_on (length features) (reconstruct pca) ->
  _calculate_reconstruction_error_for_data features categorical continuous
    batch (Some encoder) (Some scaler) (Some pca)
    imputer_categorical imputer_continuous
  = reconstruction_error_spec features categorical continuous f_cat f_cont
      encoder scaler pca batch
  /\ exists error,
       reconstruction_error_spec features categorical continuous f_cat f_cont
         encoder scaler pca batch = Ok error.
Proof.
  intros Hwf _ Hnd Hfeat Hcat Hcont Hfresh Hic Hin Hfc Hfn Henc Hsc Hpca.
  destruct (impute_total Hwf Hcat Hcont Hfc Hfn)
    as (d2 & Himp & Hwf2 & Hc2 & Hr2).
  assert (Hfeat2 : incl features (columns d2)) by now rewrite Hc2.
  destruct (getitem_shape Hwf2 Hfeat2) as (raw & Hraw & Hlraw & Hsraw).
  destruct (Henc _ _ Hlraw Hsraw) as [Hle Hse].
  destruct (@setitem_present d2 features (encoder_transform encoder raw)
              Hwf2 Hfeat2 Hle Hse)
    as (d3 & Hset3 & Hwf3 & Hc3 & Hr3 & Hget3).
  specialize (Hget3 Hnd).
  set (S := scaler_transform scaler (encoder_transform encoder raw)) in *.
  destruct (Hsc _ _ Hle Hse) as [Hls Hss]. fold S in Hls, Hss.
  assert (Hfeat3 : incl features (columns d3)) by now rewrite Hc3.
  assert (HlS : length (cells S) = length features)
    by (unfold cells; now rewrite length_map).
  assert (HsS : Forall (fun v => length v = nrows d3) (cells S))
    by (rewrite Hr3; now apply cells_shape).
  destruct (@setitem_present d3 features (cells S) Hwf3 Hfeat3 HlS HsS)
    as (d4 & Hset4 & Hwf4 & Hc4 & Hr4 & Hget4).
  specialize (Hget4 Hnd).
  set (R := reconstruct pca (cells S)) in *.
  rewrite Hr3 in HsS.
  destruct (Hpca _ _ HlS HsS) as [HlR HsR]. fold R in HlR, HsR.
  assert (HlR' : length (cells R) = length (map rf features))
    by (unfold cells; now rewrite !length_map).
  destruct (@frame_of_array_aligned (cells R) (map rf features) (nrows d2)
              HlR' (cells_shape HsR))
    as (rdf & Hrdf & Hcols & Hlens & Hmax).
  assert (Hcat4 : concat_columns d4 rdf
                  = {| nrows := nrows d2;
                       cols := cols d4 ++ combine (map rf features) (cells R) |}).
  { rewrite <- Hcols. apply concat_columns_aligned.
    - destruct Hwf4 as [_ H4]. now rewrite Hr4, Hr3 in H4.
    - exact Hlens.
    - now rewrite Hr4, Hr3. }
  assert (Hx1 : getitem_cols (cols d4 ++ combine (map rf features) (cells R))
                  features = Ok (cells S)).
  { rewrite getitem_cols_app_l; [exact Hget4|].
    intros f Hf Hin'. apply in_map_iff in Hin'.
    destruct Hin' as ([m v] & Hm & Hin'). simpl in Hm. subst m.
    apply in_combine_l in Hin'. apply in_map_iff in Hin'.
    destruct Hin' as (g & Hg & Hgin).
    apply (Hfresh g Hgin). rewrite Hg. now apply Hfeat. }
  assert (Hx2 : getitem_cols (cols d4 ++ combine (map rf features) (cells R))
                  (map rf features) = Ok (cells R)).
  { rewrite getitem_cols_app_r.
    - apply getitem_cols_combine; [now apply rf_labels_distinct|exact HlR'].
    - intros f Hf Hin'. apply in_map_iff in Hf. destruct Hf as (g & <- & Hg).
      apply (Hfresh g Hg). rewrite <- Hc2, <- Hc3, <- Hc4. exact Hin'. }
  assert (Hspec : reconstruction_error_spec features categorical continuous
                    f_cat f_cont encoder scaler pca batch
                  = Ok (mean_row_distance (nrows batch) S R)).
  { unfold reconstruction_error_spec. rewrite Himp. cbn [rbind].
    rewrite Hraw. reflexivity. }
  split; [|now exists (mean_row_distance (nrows batch) S R)].
  rewrite Hspec.
  unfold _calculate_reconstruction_error_for_data, reset_index.
  rewrite (@guarded_imputation_then _ _ _ _ _ _ _ _ _ Hic Hin), Himp.
  cbn [rbind attr]. rewrite Hraw. cbn [rbind]. rewrite Hset3. cbn [rbind].
  rewrite Hget3. cbn [rbind]. fold S. rewrite Hset4. cbn [rbind].
  rewrite Hget4. cbn [rbind].
  change (pca_inverse_transform pca (pca_transform pca (cells S))) with R.
  rewrite Hrdf. cbn [rbind]. rewrite Hcat4.
  unfold _calculate_distance, getitem. cbn [cols nrows].
  rewrite Hx1, Hx2. cbn [rbind].
  rewrite HlR', length_map, HlS, Nat.eqb_refl, frame_sub_cells. cbn [rbind].
  rewrite getcol_assign. cbn [rbind].
  unfold mean_row_distance, euclidean_distance. rewrite Hr2, map_map.
  do 2 f_equal. apply map_ext. intros i. now rewrite row_at_sub.
Qed.

End ReconstructionTheorem.

(** ** The calculator's methods *)

Section MethodFacts.
Context {B : Backend}.

Lemma mapM_length {A C} (f : A -> result C) : forall l l',
  mapM f l = Ok l' -> length l' = length l.
Proof.
  induction l as [|a l IH]; simpl; intros l' H.
  - now inversion H.
  - destruct (f a) as [b|e]; [|discriminate]. cbn [rbind] in H.
    destruct (mapM f l) as [bs|e]; [|discriminate]. cbn [rbind] in H.
    inversion H; subst. simpl. f_equal. now apply IH.
Qed.

Lemma mapM_Forall2 {A C} (f : A -> result C) : forall l l',
  mapM f l = Ok l' -> Forall2 (fun a b => f a = Ok b) l l'.
Proof.
  induction l as [|a l IH]; simpl; intros l' H.
  - inversion H. constructor.
  - destruct (f a) as [b|e] eqn:Ha; [|discriminate]. cbn [rbind] in H.
    destruct (mapM f l) as [bs|e]; [|discriminate]. cbn [rbind] in H.
    inversion H; subst. constructor; [exact Ha|]. now apply IH.
Qed.

Lemma mapM_ext {A C} (f g : A -> result C) l :
  (forall a, In a l -> f a = g a) -> mapM f l = mapM g l.
Proof.
  induction l as [|a l IH]; simpl; intros H; [reflexivity|].
  rewrite (H a) by now left.
  rewrite IH; [reflexivity|]. intros x Hx. apply H. now right.
Qed.

Lemma set_feature_split_same c :
  set_feature_split (continuous_feature_column_names c)
    (categorical_feature_column_names c) c = c.
Proof. now destruct c. Qed.

Lemma up_to_feature_split_refl c : up_to_feature_split c c.
Proof. unfold up_to_feature_split. now rewrite set_feature_split_same. Qed.

Lemma up_to_feature_split_set c cont cat :
  up_to_feature_split c (set_feature_split cont cat c).
Proof. reflexivity. Qed.

Lemma up_to_feature_split_trans a b c :
  up_to_feature_split a b -> up_to_feature_split b c ->
  up_to_feature_split a c.
Proof.
  unfold up_to_feature_split. intros Hab Hbc. rewrite Hbc at 1. rewrite Hab.
  reflexivity.
Qed.

(** [_calculate], one case after the other. *)
Lemma calculate_unfold data c :
  _calculate data c =
  if empty data then (c, Raise (InvalidArgumentsException no_rows_message))
  else
    match missing_columns (feature_column_names c) data with
    | Raise e => (c, Raise e)
    | Ok missing =>
        if 0 <? length missing then
          (c, Raise (InvalidArgumentsException (missing_columns_message missing)))
        else
          let c' :=
            set_feature_split
              (fst (_split_features_by_type data (elements (feature_column_names c))))
              (snd (_split_features_by_type data (elements (feature_column_names c))))
              c in
          (c', result_table c' data)
    end.
Proof.
  unfold _calculate, bind, read, lift, update, raise.
  destruct (empty data); [reflexivity|].
  destruct (missing_columns (feature_column_names c) data) as [m|e];
    [|reflexivity].
  destruct (0 <? length m); reflexivity.
Qed.

(** [calculate] writes nothing but the feature split. *)
Lemma calculate_frame data c :
  up_to_feature_split c (fst (_calculate data c)).
Proof.
  rewrite calculate_unfold.
  destruct (empty data); [apply up_to_feature_split_refl|].
  destruct (missing_columns (feature_column_names c) data) as [m|e];
    [|apply up_to_feature_split_refl].
  destruct (0 <? length m); [apply up_to_feature_split_refl|].
  apply up_to_feature_split_set.
Qed.

(** [_calculate_alert_thresholds] leaves [self] alone; the chunks it
    averages over come from a [split] without columns and without a
    minimum chunk size. *)
Lemma alert_thresholds_unfold ref c :
  _calculate_alert_thresholds ref c =
  (c, (errors <- mapM (reconstruction_error_of_chunk c)
                   (split (chunker c) ref None None (timestamp_column_name c)) ;;
       Ok (three_sigma errors))%result).
Proof.
  unfold _calculate_alert_thresholds, bind, read, lift, ret.
  now destruct (mapM _ _).
Qed.

Ltac fit_step H :=
  match type of H with
  | (if ?b then _ else _) _ = _ => destruct b eqn:?
  | match ?r with Ok _ => _ | Raise _ => _ end = _ =>
      destruct r eqn:?; [|discriminate H]
  | (let (_, _) := ?p in _) = _ => destruct p as [? ?] eqn:?
  | (_, Raise _) = (_, Ok _) => discriminate H
  end.

(** What a successful [fit] went through: the state [c_art] in which the
    artifacts are stored, the thresholds computed there, and the table
    that [calculate] then returns on the reference data. *)
Lemma fit_success ref c c1 :
  _fit ref c = (c1, Ok tt) ->
  exists c_art thresholds c_cal rows,
    feature_column_names c_art = feature_column_names c /\
    continuous_feature_column_names c_art
    = fst (_split_features_by_type ref (elements (feature_column_names c))) /\
    categorical_feature_column_names c_art
    = snd (_split_features_by_type ref (elements (feature_column_names c))) /\
    _calculate_alert_thresholds ref c_art = (c_art, Ok thresholds) /\
    _calculate ref (set_alert_thresholds (fst thresholds) (snd thresholds) c_art)
    = (c_cal, Ok rows) /\
    c1 = set_previous_reference_results (Some rows) c_cal.
Proof.
  intros H. unfold _fit in H.
  unfold bind, read, lift, update, raise, ret in H.
  repeat fit_step H.
  match goal with
  | Hcat : _ _ = (?s1, Ok _), Hcont : _ ?s1 = (?s2, Ok _) |- _ =>
      assert (F1 : feature_column_names s1 = feature_column_names c /\
                   continuous_feature_column_names s1
                   = fst (_split_features_by_type ref
                            (elements (feature_column_names c))) /\
                   categorical_feature_column_names s1
                   = snd (_split_features_by_type ref
                            (elements (feature_column_names c))))
        by (destruct (0 <? _) in Hcat;
            [destruct (getitem _ _) in Hcat|];
            inversion Hcat; subst; repeat split; reflexivity);
      assert (F2 : feature_column_names s2 = feature_column_names s1 /\
                   continuous_feature_column_names s2
                   = continuous_feature_column_names s1 /\
                   categorical_feature_column_names s2
                   = categorical_feature_column_names s1)
        by (destruct (0 <? _) in Hcont;
            [destruct (getitem _ _) in Hcont|];
            inversion Hcont; subst; repeat split; reflexivity)
  end.
  destruct F1 as (F1a & F1b & F1c). destruct F2 as (F2a & F2b & F2c).
  match goal with
  | Ht : _calculate_alert_thresholds ref ?s = (_, Ok ?t),
    Hc : _calculate ref _ = (?cc, Ok ?rows) |- _ =>
      exists s, t, cc, rows;
      pose proof (alert_thresholds_unfold ref s) as Hu;
      rewrite Hu in Ht; inversion Ht as [Herr]; rewrite Hu, Herr
  end.
  inversion H; subst.
  cbn [feature_column_names continuous_feature_column_names
       categorical_feature_column_names set_artifacts].
  repeat split; congruence.
Qed.

End MethodFacts.

Section TableFacts.
Context {B : Backend}.

Lemma up_to_feature_split_fields c c' :
  up_to_feature_split c c' ->
  chunker c' = chunker c /\
  feature_column_names c' = feature_column_names c /\
  timestamp_column_name c' = timestamp_column_name c /\
  _upper_alert_threshold c' = _upper_alert_threshold c /\
  _lower_alert_threshold c' = _lower_alert_threshold c /\
  previous_reference_results c' = previous_reference_results c.
Proof.
  unfold up_to_feature_split. intros ->. repeat split; reflexivity.
Qed.

Lemma up_to_feature_split_artifacts c c' :
  up_to_feature_split c c' ->
  _encoder c' = _encoder c /\ _scaler c' = _scaler c /\ _pca c' = _pca c /\
  _imputer_categorical c' = _imputer_categorical c /\
  _imputer_continuous c' = _imputer_continuous c /\
  _n_components c' = _n_components c.
Proof.
  unfold up_to_feature_split. intros ->. repeat split; reflexivity.
Qed.

(** What one row of a result table is, chunk by chunk. *)
Lemma table_rows c lower upper : forall chunks res flags,
  mapM (record_of_chunk c) chunks = Ok res ->
  _add_alert_flag res upper lower = Ok flags ->
  Forall2
    (fun chunk row =>
       labelled_as chunk row /\
       reconstruction_error_of_chunk c chunk = Ok (reconstruction_error row) /\
       lower_threshold row = lower /\ upper_threshold row = upper /\
       alert_of (reconstruction_error row) upper lower = Ok (alert row))
    chunks (map2 (make_row lower upper) res flags).
Proof.
  unfold _add_alert_flag.
  induction chunks as [|chunk chunks IH]; simpl; intros res flags Hres Hflags.
  - inversion Hres; subst. simpl. constructor.
  - unfold record_of_chunk at 1 in Hres.
    destruct (reconstruction_error_of_chunk c chunk) as [error|e] eqn:He;
      [|discriminate].
    cbn [rbind] in Hres.
    destruct (mapM (record_of_chunk c) chunks) as [rs|e]; [|discriminate].
    cbn [rbind] in Hres. inversion Hres; subst. clear Hres.
    cbn [mapM rec_reconstruction_error] in Hflags.
    destruct (alert_of error upper lower) as [flag|e] eqn:Ha; [|discriminate].
    cbn [rbind] in Hflags.
    destruct (mapM _ rs) as [fs|e] eqn:Hfs; [|discriminate].
    cbn [rbind] in Hflags. inversion Hflags; subst. clear Hflags.
    cbn [map2]. constructor.
    + unfold labelled_as, make_row. cbn. repeat split; assumption.
    + now apply IH.
Qed.

Lemma result_table_rows c data rows :
  result_table c data = Ok rows ->
  Forall2
    (fun chunk row =>
       labelled_as chunk row /\
       reconstruction_error_of_chunk c chunk = Ok (reconstruction_error row) /\
       lower_threshold row = _lower_alert_threshold c /\
       upper_threshold row = _upper_alert_threshold c /\
       alert_of (reconstruction_error row)
         (_upper_alert_threshold c) (_lower_alert_threshold c)
       = Ok (alert row))
    (split (chunker c) data
       (Some (elements (feature_column_names c)))
       (Some (_minimum_chunk_size (elements (feature_column_names c))))
       (timestamp_column_name c))
    rows.
Proof.
  unfold result_table. intros H.
  destruct (mapM (record_of_chunk c) _) as [res|e] eqn:Hres; [|discriminate].
  cbn [rbind] in H.
  destruct (_add_alert_flag res _ _) as [flags|e] eqn:Hflags; [|discriminate].
  cbn [rbind] in H. inversion H; subst.
  eapply table_rows; eassumption.
Qed.

(** A table that [calculate] returns was built in the state it leaves. *)
Lemma calculate_returns data c c' rows :
  _calculate data c = (c', Ok rows) ->
  up_to_feature_split c c' /\ result_table c' data = Ok rows /\
  empty data = false /\
  continuous_feature_column_names c'
  = fst (_split_features_by_type data (elements (feature_column_names c))) /\
  categorical_feature_column_names c'
  = snd (_split_features_by_type data (elements (feature_column_names c))).
Proof.
  intros H. pose proof (calculate_frame data c) as Hframe.
  rewrite H in Hframe. cbn [fst] in Hframe.
  rewrite calculate_unfold in H.
  destruct (empty data); [discriminate|].
  destruct (missing_columns (feature_column_names c) data) as [m|e];
    [|discriminate].
  destruct (0 <? length m); [discriminate|].
  cbv zeta in H. inversion H as [[Hc Hr]]. rewrite Hc in Hr.
  subst c'. repeat split; try assumption; reflexivity.
Qed.

Lemma calculate_each_outcomes : forall datasets c c2 outcomes,
  calculate_each datasets c = (c2, outcomes) ->
  up_to_feature_split c c2 /\
  forall rows, In (Ok rows) outcomes ->
    exists d c', In d datasets /\ up_to_feature_split c c' /\
                 result_table c' d = Ok rows.
Proof.
  induction datasets as [|d ds IH]; simpl; intros c c2 outcomes H.
  - inversion H; subst. split; [apply up_to_feature_split_refl|].
    intros rows [].
  - destruct (_calculate d c) as [c' outcome] eqn:Hd.
    destruct (calculate_each ds c') as [c'' outs] eqn:Hds.
    inversion H; subst. clear H.
    pose proof (calculate_frame d c) as Hframe. rewrite Hd in Hframe.
    cbn [fst] in Hframe.
    destruct (IH _ _ _ Hds) as [Hc'' Houts].
    split; [eapply up_to_feature_split_trans; eassumption|].
    intros rows [Hrow|Hin].
    + subst outcome. apply calculate_returns in Hd.
      exists d, c'. repeat split; try apply Hd. now left.
    + destruct (Houts rows Hin) as (d' & c3 & Hd' & Hc3 & Htab).
      exists d', c3. repeat split; [now right| |exact Htab].
      eapply up_to_feature_split_trans; eassumption.
Qed.

Lemma Forall2_In_r {A C} (R : A -> C -> Prop) l l' b :
  Forall2 R l l' -> In b l' -> exists a, In a l /\ R a b.
Proof.
  induction 1 as [|x y l l' Hxy _ IH]; simpl; intros Hin; [contradiction|].
  destruct Hin as [<-|Hin].
  - exists x. split; [now left|exact Hxy].
  - destruct (IH Hin) as (a & Ha & HR). exists a. split; [now right|exact HR].
Qed.

End TableFacts.

Section LifeCycle.
Context {B : Backend}.


(** C7.  After a successful [fit], [calculate] on the same reference data
    returns, and its table is the snapshot that [fit] stored; the call
    leaves the calculator as it was. *)
Theorem fit_then_calculate_reproduces_snapshot ref c c1 :
  _fit ref c = (c1, Ok tt) ->
  exists rows,
    _calculate ref c1 = (c1, Ok rows) /\
    previous_reference_results c1 = Some rows.
Proof.
  intros H. apply fit_success in H.
  destruct H as (c_art & t & c_cal & rows & Hfn & _ & _ & _ & Hcal & ->).
  exists rows. split; [|reflexivity].
  pose proof Hcal as Hret. apply calculate_returns in Hret.
  destruct Hret as (_ & Htable & Hne & _).
  rewrite calculate_unfold in Hcal.
  cbn [feature_column_names set_alert_thresholds] in Hcal.
  rewrite Hne in Hcal.
  destruct (missing_columns (feature_column_names c_art) ref) as [m|e] eqn:Hm;
    [|discriminate].
  destruct (0 <? length m) eqn:Hlen; [discriminate|].
  cbv zeta in Hcal. inversion Hcal as [[Hc Hr]]. clear Hcal.
  rewrite calculate_unfold.
  cbn [feature_column_names set_previous_reference_results set_feature_split
       set_alert_thresholds].
  rewrite Hne, Hm, Hlen. cbv zeta. f_equal; assumption.
Qed.

End LifeCycle.

Section Thresholds.
Context {B : Backend}.

Lemma Qltb_false x y : (y <= x)%Q -> Qltb x y = false.
Proof.
  intros H. unfold Qltb. apply Qle_bool_iff in H. now rewrite H.
Qed.

Lemma feq_not_above e t : feq e t -> fgt e t = false.
Proof.
  destruct e as [x|], t as [y|]; simpl; try contradiction.
  intros H. apply Qltb_false. rewrite H. apply Qle_refl.
Qed.

Lemma feq_not_below e t : feq e t -> flt e t = false.
Proof.
  destruct e as [x|], t as [y|]; simpl; try contradiction.
  intros H. apply Qltb_false. rewrite H. apply Qle_refl.
Qed.

(** The lower bound never exceeds the upper one, so an error on one
    bound is not beyond the other. *)
Lemma three_sigma_ordered errors e :
  (forall s x, series_std s = Some x -> (0 <= x)%Q) ->
  (feq e (fst (three_sigma errors)) -> flt e (snd (three_sigma errors)) = false) /\
  (feq e (snd (three_sigma errors)) -> fgt e (fst (three_sigma errors)) = false).
Proof.
  intros Hstd. unfold three_sigma. cbn [fst snd].
  destruct (series_mean (map Num errors)) as [m|];
    [|split; intros H; destruct e; contradiction].
  destruct (series_std (map Num errors)) as [s|] eqn:Hs;
    [|split; intros H; destruct e; contradiction].
  apply Hstd in Hs.
  destruct e as [x|]; [|split; intros H; contradiction].
  cbn [fadd fsub fmul feq flt fgt].
  split; intros H; apply Qltb_false; rewrite H; lra.
Qed.

Lemma alert_of_bool e upper lower flag :
  alert_of e (Some upper) (Some lower) = Ok flag ->
  flag = fgt e upper || flt e lower.
Proof.
  unfold alert_of. destruct (fgt e upper); simpl.
  - now inversion 1.
  - destruct (flt e lower); now inversion 1.
Qed.

Lemma reconstruction_error_of_chunk_agree c c' chunk :
  feature_column_names c' = feature_column_names c ->
  categorical_feature_column_names c' = categorical_feature_column_names c ->
  continuous_feature_column_names c' = continuous_feature_column_names c ->
  _encoder c' = _encoder c -> _scaler c' = _scaler c -> _pca c' = _pca c ->
  _imputer_categorical c' = _imputer_categorical c ->
  _imputer_continuous c' = _imputer_continuous c ->
  reconstruction_error_of_chunk c' chunk = reconstruction_error_of_chunk c chunk.
Proof.
  unfold reconstruction_error_of_chunk. now intros -> -> -> -> -> -> -> ->.
Qed.

(** What [fit] leaves in the threshold fields. *)
Lemma fit_thresholds ref c c1 :
  _fit ref c = (c1, Ok tt) ->
  exists errors,
    mapM (reconstruction_error_of_chunk c1)
      (split (chunker c1) ref None None (timestamp_column_name c1)) = Ok errors /\
    _upper_alert_threshold c1 = Some (fst (three_sigma errors)) /\
    _lower_alert_threshold c1 = Some (snd (three_sigma errors)).
Proof.
  intros H. apply fit_success in H.
  destruct H as (c_art & t & c_cal & rows & Hfn & Hcont & Hcat & Ht & Hcal & ->).
  rewrite alert_thresholds_unfold in Ht. inversion Ht as [Herr]. clear Ht.
  destruct (mapM (reconstruction_error_of_chunk c_art) _) as [errors|e] eqn:Hm;
    [|discriminate].
  cbn [rbind] in Herr. inversion Herr; subst t. clear Herr.
  apply calculate_returns in Hcal.
  destruct Hcal as (Hframe & _ & _ & Hcont' & Hcat').
  cbn [feature_column_names set_alert_thresholds] in Hcont', Hcat'.
  pose proof Hframe as Hart. apply up_to_feature_split_artifacts in Hart.
  destruct Hart as (He & Hs & Hp & Hic & Hin & _).
  apply up_to_feature_split_fields in Hframe.
  destruct Hframe as (Hch & Hfn' & Hts & Hup & Hlo & _).
  cbn [chunker feature_column_names timestamp_column_name
       _upper_alert_threshold _lower_alert_threshold _encoder _scaler _pca
       _imputer_categorical _imputer_continuous set_alert_thresholds] in *.
  exists errors.
  cbn [chunker timestamp_column_name _upper_alert_threshold
       _lower_alert_threshold set_previous_reference_results].
  rewrite Hch, Hts, Hup, Hlo. repeat split.
  rewrite <- Hm. apply mapM_ext. intros chunk _.
  apply reconstruction_error_of_chunk_agree;
    cbn [feature_column_names categorical_feature_column_names
         continuous_feature_column_names _encoder _scaler _pca
         _imputer_categorical _imputer_continuous
         set_previous_reference_results]; congruence.
Qed.

(** C2.  [fit] computes the two thresholds as the mean of the per-chunk
    reconstruction errors of the reference chunks plus and minus three
    times their standard deviation; no later [calculate] changes them,
    and every row of every later result carries them. *)
Theorem thresholds_fixed_at_fit ref c c1 :
  _fit ref c = (c1, Ok tt) ->
  exists errors,
    mapM (reconstruction_error_of_chunk c1)
      (split (chunker c1) ref None None (timestamp_column_name c1)) = Ok errors /\
    _upper_alert_threshold c1
    = Some (fadd (series_mean (map Num errors))
                 (fmul (Some 3%Q) (series_std (map Num errors)))) /\
    _lower_alert_threshold c1
    = Some (fsub (series_mean (map Num errors))
                 (fmul (Some 3%Q) (series_std (map Num errors)))) /\
    forall datasets c2 outcomes,
      calculate_each datasets c1 = (c2, outcomes) ->
      _upper_alert_threshold c2 = _upper_alert_threshold c1 /\
      _lower_alert_threshold c2 = _lower_alert_threshold c1 /\
      forall rows row, In (Ok rows) outcomes -> In row rows ->
        upper_threshold row = _upper_alert_threshold c1 /\
        lower_threshold row = _lower_alert_threshold c1.
Proof.
  intros H. apply fit_thresholds in H. destruct H as (errors & Hm & Hup & Hlo).
  exists errors. unfold three_sigma in Hup, Hlo. cbn [fst snd] in Hup, Hlo.
  split; [exact Hm|]. split; [exact Hup|]. split; [exact Hlo|].
  intros datasets c2 outcomes Heach.
  apply calculate_each_outcomes in Heach. destruct Heach as [Hf Hout].
  apply up_to_feature_split_fields in Hf.
  destruct Hf as (_ & _ & _ & Hup2 & Hlo2 & _).
  split; [exact Hup2|]. split; [exact Hlo2|].
  intros rows row Hrows Hrow.
  destruct (Hout _ Hrows) as (d & c' & _ & Hf & Htab).
  apply result_table_rows in Htab.
  destruct (Forall2_In_r _ Htab Hrow) as (chunk & _ & _ & _ & Hl & Hu & _).
  apply up_to_feature_split_fields in Hf.
  destruct Hf as (_ & _ & _ & Hup' & Hlo' & _).
  rewrite Hu, Hl. now split.
Qed.

(** C3.  In every row of every result that a fitted calculator returns,
    the alert flag is set exactly when the reconstruction error is above
    the upper threshold or below the lower one, both strictly: an error
    equal to a threshold gives no alert. *)
Theorem alert_iff_strictly_outside ref c c1 datasets c2 outcomes rows row :
  (forall s x, series_std s = Some x -> (0 <= x)%Q) ->
  _fit ref c = (c1, Ok tt) ->
  calculate_each datasets c1 = (c2, outcomes) ->
  In (Ok rows) outcomes -> In row rows ->
  exists upper lower,
    upper_threshold row = Some upper /\ lower_threshold row = Some lower /\
    (alert row = true <->
     fgt (reconstruction_error row) upper = true \/
     flt (reconstruction_error row) lower = true) /\
    (feq (reconstruction_error row) upper \/
     feq (reconstruction_error row) lower -> alert row = false).
Proof.
  intros Hstd Hfit Heach Hrows Hrow.
  apply fit_thresholds in Hfit. destruct Hfit as (errors & _ & Hup & Hlo).
  apply calculate_each_outcomes in Heach. destruct Heach as [_ Hout].
  destruct (Hout _ Hrows) as (d & c' & _ & Hf & Htab).
  apply result_table_rows in Htab.
  destruct (Forall2_In_r _ Htab Hrow) as (chunk & _ & _ & _ & Hl & Hu & Ha).
  apply up_to_feature_split_fields in Hf.
  destruct Hf as (_ & _ & _ & Hup' & Hlo' & _).
  rewrite Hup', Hup in Hu, Ha. rewrite Hlo', Hlo in Hl, Ha.
  exists (fst (three_sigma errors)), (snd (three_sigma errors)).
  apply alert_of_bool in Ha.
  destruct (three_sigma_ordered errors (reconstruction_error row) Hstd)
    as [Hupper Hlower].
  repeat split; try assumption.
  - rewrite Ha. intros Hor. now apply orb_true_iff.
  - rewrite Ha. intros Hor. now apply orb_true_iff.
  - rewrite Ha. intros [Heq|Heq].
    + now rewrite (feq_not_above _ _ Heq), (Hupper Heq).
    + now rewrite (Hlower Heq), (feq_not_below _ _ Heq).
Qed.

End Thresholds.

Section Validation.
Context {B : Backend}.

Lemma fit_empty data c :
  empty data = true ->
  _fit data c = (c, Raise (InvalidArgumentsException no_rows_message)).
Proof. intros H. unfold _fit. now rewrite H. Qed.

Lemma calculate_empty data c :
  empty data = true ->
  _calculate data c = (c, Raise (InvalidArgumentsException no_rows_message)).
Proof. intros H. unfold _calculate. now rewrite H. Qed.

(** With the names in a Python list the subscript by a mask fails, on
    every data set that has rows. *)
Lemma validation_of_list_names data c l :
  feature_column_names c = PyList l -> empty data = false ->
  _fit data c = (c, Raise TypeError) /\
  _calculate data c = (c, Raise TypeError).
Proof.
  intros Hl He. unfold _fit, _calculate, bind, read, lift.
  rewrite He, Hl. split; reflexivity.
Qed.

(** The names of an array that the frame lacks, in order. *)
Lemma missing_columns_of_array l data :
  missing_columns (NdArray l) data
  = Ok (filter (fun n => negb (existsb (String.eqb n) (columns data))) l).
Proof.
  unfold missing_columns, mask_getitem, np_isin, elements. f_equal.
  induction l as [|n l IH]; [reflexivity|].
  cbn [map combine filter snd].
  destruct (negb (existsb (String.eqb n) (columns data))); cbn [map fst];
    now rewrite IH.
Qed.

Lemma append_assoc (a b c : string) :
  ((a ++ b) ++ c = a ++ (b ++ c))%string.
Proof.
  induction a as [|x a IH]; simpl; [reflexivity|]. now rewrite IH.
Qed.

Lemma mentions_here before part after :
  mentions (before ++ part ++ after) part.
Proof. now exists before, after. Qed.

Lemma mentions_append_l msg tail part :
  mentions msg part -> mentions (msg ++ tail) part.
Proof.
  intros (before & after & ->). exists before, (after ++ tail)%string.
  now rewrite !append_assoc.
Qed.

Lemma mentions_append_r head msg part :
  mentions msg part -> mentions (head ++ msg) part.
Proof.
  intros (before & after & ->). exists (head ++ before)%string, after.
  now rewrite !append_assoc.
Qed.

Lemma mentions_concat sep l f :
  In f l -> mentions (String.concat sep (map (fun s => "'" ++ s ++ "'")%string l)) f.
Proof.
  induction l as [|n l IH]; intros Hin; [contradiction|].
  cbn [map String.concat].
  destruct Hin as [->|Hin].
  - destruct (map (fun s => "'" ++ s ++ "'")%string l).
    + apply mentions_here.
    + apply mentions_append_l. apply mentions_here.
  - specialize (IH Hin).
    destruct (map (fun s => "'" ++ s ++ "'")%string l) eqn:E.
    + destruct l; [contradiction|discriminate].
    + apply mentions_append_r, mentions_append_r. exact IH.
Qed.

(** The message about missing columns names each of them. *)
Lemma message_names_missing_columns l f :
  In f l -> mentions (missing_columns_message l) f.
Proof.
  intros Hin. unfold missing_columns_message, np_str.
  apply mentions_append_r, mentions_append_l, mentions_append_r,
        mentions_append_l.
  now apply mentions_concat.
Qed.

(** With the names in an array, a data set that has rows and lacks a
    declared column is refused by both methods with the same
    data-validation error, which names every missing column. *)
Lemma validation_of_array_names data c l :
  feature_column_names c = NdArray l -> empty data = false ->
  (exists f, In f l /\ ~ In f (columns data)) ->
  exists missing,
    _fit data c
    = (c, Raise (InvalidArgumentsException (missing_columns_message missing))) /\
    _calculate data c
    = (c, Raise (InvalidArgumentsException (missing_columns_message missing))) /\
    forall f, In f l -> ~ In f (columns data) ->
              mentions (missing_columns_message missing) f.
Proof.
  intros Hl He (f & Hf & Hnot).
  set (missing := filter (fun n => negb (existsb (String.eqb n) (columns data))) l).
  assert (Hin : forall g, In g l -> ~ In g (columns data) -> In g missing).
  { intros g Hg Hng. apply filter_In. split; [exact Hg|].
    apply negb_true_iff. apply not_true_is_false. intros Hex.
    apply existsb_exists in Hex. destruct Hex as (x & Hx & Heq).
    apply String.eqb_eq in Heq. now subst. }
  assert (Hlen : (0 <? length missing) = true).
  { apply Nat.ltb_lt. specialize (Hin f Hf Hnot).
    destruct missing; [contradiction|simpl; lia]. }
  exists missing. unfold _fit, _calculate, bind, read, lift, raise.
  rewrite He, Hl, missing_columns_of_array. fold missing. rewrite Hlen.
  repeat split. intros g Hg Hng.
  apply message_names_missing_columns. now apply Hin.
Qed.

End Validation.

Section BeforeFit.
Context {B : Backend}.

(** C6, as the code has it.  On a calculator that was only constructed,
    [calculate] alters no artifact, no threshold and no stored snapshot,
    whatever the data set: the calculator stays unfitted.  On an empty
    data set it raises the data-validation error and leaves every field
    as it was. *)
Theorem calculate_before_fit
  (ns : names) (ts : string) (n : n_components)
  (chunk_size chunk_number : option Z) (chunk_period : option string)
  (chunker : option Chunker)
  (imputer_categorical imputer_continuous : option SimpleImputer)
  (c : Calculator) (data : DataFrame) :
  __init__ ns ts n chunk_size chunk_number chunk_period chunker
    imputer_categorical imputer_continuous = Ok c ->
  (_encoder (fst (_calculate data c)) = None /\
   _scaler (fst (_calculate data c)) = None /\
   _pca (fst (_calculate data c)) = None /\
   _upper_alert_threshold (fst (_calculate data c)) = None /\
   _lower_alert_threshold (fst (_calculate data c)) = None /\
   previous_reference_results (fst (_calculate data c)) = None /\
   _imputer_categorical (fst (_calculate data c)) = _imputer_categorical c /\
   _imputer_continuous (fst (_calculate data c)) = _imputer_continuous c) /\
  (empty data = true ->
   _calculate data c
   = (c, Raise (InvalidArgumentsException no_rows_message))).
Proof.
  intros Hinit.
  assert (Hnew : _encoder c = None /\ _scaler c = None /\ _pca c = None /\
                 _upper_alert_threshold c = None /\
                 _lower_alert_threshold c = None /\
                 previous_reference_results c = None).
  { unfold __init__ in Hinit.
    destruct imputer_categorical as [i|]; cbn [rbind] in Hinit.
    - destruct (existsb _ _); [|discriminate]. cbn [rbind] in Hinit.
      inversion Hinit; subst. repeat split.
    - inversion Hinit; subst. repeat split. }
  destruct Hnew as (He & Hs & Hp & Hu & Hl & Hr).
  split; [|apply calculate_empty].
  pose proof (calculate_frame data c) as Hframe.
  pose proof Hframe as Hart. apply up_to_feature_split_artifacts in Hart.
  apply up_to_feature_split_fields in Hframe.
  destruct Hart as (He' & Hs' & Hp' & Hic & Hin & _).
  destruct Hframe as (_ & _ & _ & Hu' & Hl' & Hr').
  repeat split; congruence.
Qed.



Lemma calculate_keeps_reference_results data c :
  previous_reference_results (fst (_calculate data c))
  = previous_reference_results c.
Proof.
  pose proof (calculate_frame data c) as H.
  now apply up_to_feature_split_fields in H.
Qed.

(** What [plot] does to the two tables it reaches. *)
Lemma plot_drift_writes self plot_reference :
  data (fst (plot self "drift" plot_reference))
  = map (set_period "analysis") (data self) /\
  (plot_reference = true ->
   previous_reference_results (calculator (fst (plot self "drift" plot_reference)))
   = option_map (map (set_period "reference"))
       (previous_reference_results (calculator self))).
Proof.
  unfold plot, _plot_drift. cbn [String.eqb Ascii.eqb Bool.eqb].
  destruct plot_reference.
  - destruct (previous_reference_results (calculator self)) eqn:E;
      cbn [fst data calculator]; split; try reflexivity; intros _;
      first [reflexivity | simpl; exact E].
  - split; [reflexivity|discriminate].
Qed.

End BeforeFit.

(** ** The minimum chunk size *)

Section MinimumChunkSize.

Lemma floor_root6_upto_spec m : (0 <= m)%Z -> forall bound,
  (m < (Z.of_nat bound + 1) ^ 6)%Z ->
  let r := floor_root6_upto bound m in
  (0 <= r /\ r ^ 6 <= m < (r + 1) ^ 6)%Z.
Proof.
  intros Hm. induction bound as [|b IH]; intros Hb.
  - cbn [floor_root6_upto]. cbn in Hb. lia.
  - cbn [floor_root6_upto].
    destruct (Z.leb_spec (Z.of_nat (S b) ^ 6) m) as [Hle|Hgt].
    + cbv zeta. split; [lia|]. split; [exact Hle|exact Hb].
    + apply IH. replace (Z.of_nat b + 1)%Z with (Z.of_nat (S b)) by lia.
      exact Hgt.
Qed.

(** [_minimum_chunk_size] is the integer part of [20 * n^(5/6)]: its
    sixth power is at most [20^6 * n^5], and the next integer's is
    more. *)
Lemma minimum_chunk_size_floor features :
  let n := Z.of_nat (length features) in
  let m := _minimum_chunk_size features in
  (0 <= m /\ m ^ 6 <= 20 ^ 6 * n ^ 5 < (m + 1) ^ 6)%Z.
Proof.
  cbv zeta. unfold _minimum_chunk_size.
  set (n := Z.of_nat (length features)).
  assert (Hn : (0 <= n)%Z) by (unfold n; lia).
  change (20 ^ 6)%Z with 64000000%Z.
  apply floor_root6_upto_spec.
  - apply Z.mul_nonneg_nonneg; [lia|]. now apply Z.pow_nonneg.
  - rewrite Nat2Z.inj_mul. fold n. change (Z.of_nat 20) with 20%Z.
    assert (H5 : (0 <= n ^ 5)%Z) by now apply Z.pow_nonneg.
    assert (H : (64000000 * n ^ 5 <= (20 * n) ^ 6)%Z).
    { rewrite Z.pow_mul_l. change (20 ^ 6)%Z with 64000000%Z.
      apply Z.mul_le_mono_nonneg_l; [lia|].
      replace (n ^ 6)%Z with (n ^ 5 * n)%Z by ring.
      destruct (Z.eq_dec n 0) as [->|Hne]; [cbn; lia|]. nia. }
    assert (H' : ((20 * n) ^ 6 < (20 * n + 1) ^ 6)%Z).
    { apply Z.pow_lt_mono_l; lia. }
    lia.
Qed.

Example minimum_chunk_size_1 : _minimum_chunk_size ["a"]%string = 20%Z.
Proof. reflexivity. Qed.

Example minimum_chunk_size_3 :
  _minimum_chunk_size ["a"; "b"; "c"]%string = 49%Z.
Proof. vm_compute. reflexivity. Qed.

End MinimumChunkSize.

(** ** The demonstration backend *)

Section DemoFacts.
Import Demo.

Lemma map2_length {A C D} (f : A -> C -> D) : forall l l',
  length (map2 f l l') = Nat.min (length l) (length l').
Proof.
  induction l as [|a l IH]; intros [|b l']; simpl; try reflexivity.
  now rewrite IH.
Qed.

Lemma map2_Forall {A C D} (f : A -> C -> D) (P : D -> Prop) : forall l l',
  (forall a b, In b l' -> P (f a b)) -> Forall P (map2 f l l').
Proof.
  induction l as [|a l IH]; intros [|b l'] H; simpl; constructor.
  - apply H. now left.
  - apply IH. intros x y Hy. apply H. now right.
Qed.

Lemma fill_zero_shape k : preserves_shape_on k fill_zero.
Proof.
  intros n X HX Hall. unfold fill_zero. split; [now rewrite length_map|].
  apply Forall_map. eapply Forall_impl; [|exact Hall].
  intros v Hv. now rewrite length_map.
Qed.

Lemma count_encoder_shape reference :
  preserves_shape_on (length reference)
    (encoder_transform (count_encoder reference)).
Proof.
  intros n X HX Hall. cbn [encoder_transform count_encoder]. split.
  - rewrite map2_length. unfold matrix, column in *. lia.
  - apply map2_Forall. intros r c Hc. rewrite length_map.
    rewrite Forall_forall in Hall. now apply Hall.
Qed.

Lemma standardize_length reference c :
  length (standardize reference c) = length c.
Proof.
  unfold standardize.
  destruct (mean reference), (std reference); now rewrite length_map.
Qed.

Lemma standard_scaler_shape reference :
  preserves_shape_on (length reference)
    (scaler_transform (standard_scaler reference)).
Proof.
  intros n X HX Hall. cbn [scaler_transform standard_scaler]. split.
  - rewrite map2_length. unfold matrix, column in *. lia.
  - apply map2_Forall. intros r c Hc. rewrite standardize_length.
    rewrite Forall_forall in Hall. now apply Hall.
Qed.

Lemma axis_projection_shape :
  preserves_shape_on 2 (reconstruct (axis_projection 1)).
Proof.
  intros n X HX Hall.
  destruct X as [|a [|b [|? ?]]]; try discriminate.
  inversion Hall as [|? ? Ha _]; subst.
  unfold reconstruct. cbn. split; [reflexivity|].
  repeat constructor; now rewrite !length_map.
Qed.

Lemma approx_sqrt_nonneg x : (0 <= approx_sqrt x)%Q.
Proof.
  unfold approx_sqrt, Qle. cbn [Qnum Qden].
  pose proof (Z.sqrt_nonneg (Qnum x * Z.pos (Qden x) * 1000000)). lia.
Qed.

Lemma std_nonneg s x : std s = Some x -> (0 <= x)%Q.
Proof.
  unfold std. destruct (numbers s) as [|a [|b l]]; try discriminate.
  intros H. replace x with (sample_std (a :: b :: l)) by congruence.
  unfold sample_std. rewrite Qred_correct. apply approx_sqrt_nonneg.
Qed.

Lemma new_calculator_unfitted ns : new_calculator ns = Ok (unfitted ns).
Proof. reflexivity. Qed.

Lemma fit_reference_data :
  _fit reference_data (unfitted (NdArray features)) = (fitted, Ok tt).
Proof.
  unfold fitted.
  assert (H : snd (_fit reference_data (unfitted (NdArray features))) = Ok tt)
    by (vm_compute; reflexivity).
  destruct (_fit reference_data (unfitted (NdArray features))) as [c r].
  cbn [fst snd] in *. now subst.
Qed.

Lemma reference_data_wf : wf_frame reference_data.
Proof.
  split.
  - cbn. repeat constructor; cbn; intuition discriminate.
  - cbn. repeat constructor.
Qed.

End DemoFacts.

(** ** The theorems at a concrete input *)

Section Witnesses.
Import Demo.


Lemma calculate_each_reference_data :
  calculate_each [reference_data] fitted
  = (fst (calculate_each [reference_data] fitted), [Ok reference_rows]).
Proof.
  assert (H : snd (calculate_each [reference_data] fitted)
              = [Ok reference_rows])
    by (vm_compute; reflexivity).
  destruct (calculate_each [reference_data] fitted) as [c r].
  cbn [fst snd] in *. now subst.
Qed.

Lemma reconstruction_error_witness :
  (wf_frame reference_data /\ 0 < nrows reference_data) /\
  _calculate_reconstruction_error_for_data features [] features
    reference_data (Some encoder) (Some scaler) (Some pca) imputer imputer
  = reconstruction_error_spec features [] features fill_zero fill_zero
      encoder scaler pca reference_data /\
  exists error,
    reconstruction_error_spec features [] features fill_zero fill_zero
      encoder scaler pca reference_data = Ok error.
Proof.
  split; [split; [apply reference_data_wf|cbn; lia]|].
  apply (@reconstruction_error_follows_the_steps backend features [] features
           reference_data encoder scaler pca imputer imputer
           fill_zero fill_zero).
  - apply reference_data_wf.
  - cbn. lia.
  - repeat constructor; cbn; intuition discriminate.
  - intros f [<-|[<-|[]]]; cbn; auto.
  - intros f [].
  - intros f [<-|[<-|[]]]; cbn; auto.
  - intros f [<-|[<-|[]]]; cbn; intuition discriminate.
  - reflexivity.
  - reflexivity.
  - apply fill_zero_shape.
  - apply fill_zero_shape.
  - apply (count_encoder_shape raw).
  - apply (standard_scaler_shape (encoder_transform encoder raw)).
  - apply axis_projection_shape.
Defined.

Lemma thresholds_fixed_at_fit_witness :
  _fit reference_data (unfitted (NdArray features)) = (fitted, Ok tt) /\
  exists errors,
    mapM (reconstruction_error_of_chunk fitted)
      (split (chunker fitted) reference_data None None
         (timestamp_column_name fitted)) = Ok errors /\
    _upper_alert_threshold fitted
    = Some (fadd (series_mean (map Num errors))
                 (fmul (Some 3%Q) (series_std (map Num errors)))) /\
    _lower_alert_threshold fitted
    = Some (fsub (series_mean (map Num errors))
                 (fmul (Some 3%Q) (series_std (map Num errors)))) /\
    forall datasets c2 outcomes,
      calculate_each datasets fitted = (c2, outcomes) ->
      _upper_alert_threshold c2 = _upper_alert_threshold fitted /\
      _lower_alert_threshold c2 = _lower_alert_threshold fitted /\
      forall rows row, In (Ok rows) outcomes -> In row rows ->
        upper_threshold row = _upper_alert_threshold fitted /\
        lower_threshold row = _lower_alert_threshold fitted.
Proof.
  split; [apply fit_reference_data|].
  apply (@thresholds_fixed_at_fit backend reference_data
           (unfitted (NdArray features)) fitted).
  apply fit_reference_data.
Defined.

Lemma alert_iff_strictly_outside_witness :
  (forall s x, std s = Some x -> (0 <= x)%Q) /\
  _fit reference_data (unfitted (NdArray features)) = (fitted, Ok tt) /\
  In (Ok reference_rows) (snd (calculate_each [reference_data] fitted)) /\
  Forall
    (fun row =>
       exists upper lower,
         upper_threshold row = Some upper /\ lower_threshold row = Some lower /\
         (alert row = true <->
          fgt (reconstruction_error row) upper = true \/
          flt (reconstruction_error row) lower = true) /\
         (feq (reconstruction_error row) upper \/
          feq (reconstruction_error row) lower -> alert row = false))
    reference_rows.
Proof.
  split; [apply std_nonneg|]. split; [apply fit_reference_data|].
  split; [rewrite calculate_each_reference_data; now left|].
  apply Forall_forall. intros row Hrow.
  apply (@alert_iff_strictly_outside backend reference_data
           (unfitted (NdArray features)) fitted [reference_data]
           (fst (calculate_each [reference_data] fitted))
           [Ok reference_rows] reference_rows row).
  - apply std_nonneg.
  - apply fit_reference_data.
  - apply calculate_each_reference_data.
  - now left.
  - exact Hrow.
Defined.

Lemma fit_then_calculate_witness :
  _fit reference_data (unfitted (NdArray features)) = (fitted, Ok tt) /\
  exists rows,
    _calculate reference_data fitted = (fitted, Ok rows) /\
    previous_reference_results fitted = Some rows.
Proof.
  split; [apply fit_reference_data|].
  apply (@fit_then_calculate_reproduces_snapshot backend reference_data
           (unfitted (NdArray features)) fitted).
  apply fit_reference_data.
Defined.


Lemma calculate_before_fit_witness :
  new_calculator (NdArray features) = Ok (unfitted (NdArray features)) /\
  empty no_data = true /\
  (_encoder (fst (_calculate no_data (unfitted (NdArray features)))) = None /\
   _scaler (fst (_calculate no_data (unfitted (NdArray features)))) = None /\
   _pca (fst (_calculate no_data (unfitted (NdArray features)))) = None /\
   _upper_alert_threshold
     (fst (_calculate no_data (unfitted (NdArray features)))) = None /\
   _lower_alert_threshold
     (fst (_calculate no_data (unfitted (NdArray features)))) = None /\
   previous_reference_results
     (fst (_calculate no_data (unfitted (NdArray features)))) = None /\
   _imputer_categorical (fst (_calculate no_data (unfitted (NdArray features))))
   = _imputer_categorical (unfitted (NdArray features)) /\
   _imputer_continuous (fst (_calculate no_data (unfitted (NdArray features))))
   = _imputer_continuous (unfitted (NdArray features))) /\
  _calculate no_data (unfitted (NdArray features))
  = (unfitted (NdArray features),
     Raise (InvalidArgumentsException no_rows_message)).
Proof.
  split; [reflexivity|]. split; [reflexivity|].
  destruct (@calculate_before_fit backend (NdArray features) "timestamp"
              (NInt 1) (Some 2%Z) None None None None None
              (unfitted (NdArray features)) no_data
              (new_calculator_unfitted (NdArray features)))
    as [Hframe Hempty].
  split; [exact Hframe|]. apply Hempty. reflexivity.
Defined.


(** The model at work: on the reference rows the error stays between the
    thresholds; on the drifted rows it is above the upper one. *)
Example reference_data_raises_no_alert :
  option_map (map (fun row => (reconstruction_error row, alert row)))
    (match snd (_calculate reference_data fitted) with
     | Ok rows => Some rows
     | Raise _ => None
     end)
  = Some [(Some (3 # 4)%Q, false)].
Proof. vm_compute. reflexivity. Qed.

Example drifted_data_raises_an_alert :
  option_map (map (fun row => (reconstruction_error row, alert row)))
    (match snd (_calculate drifted_data fitted) with
     | Ok rows => Some rows
     | Raise _ => None
     end)
  = Some [(Some (5 # 2)%Q, true)].
Proof. vm_compute. reflexivity. Qed.

End Witnesses.

(** ** Where the code and the specification part *)

Section Divergences.
Import Demo.

(** C4.  [fit] derives the thresholds from a [split] that is given no
    minimum chunk size, while [calculate] passes
    [_minimum_chunk_size(features)].  With two features the minimum is
    35 rows: on four reference rows and chunks of two, the thresholds
    come from two chunks, and the policy of [calculate] would have made
    one chunk and other thresholds. *)
Theorem thresholds_split_without_minimum_chunk_size :
  _minimum_chunk_size features = 35%Z /\
  length (split (chunker fitted) reference_data None None "timestamp") = 2 /\
  length (split (chunker fitted) reference_data
            (Some features) (Some (_minimum_chunk_size features)) "timestamp")
  = 1 /\
  (exists errors,
     mapM (reconstruction_error_of_chunk fitted)
       (split (chunker fitted) reference_data None None "timestamp")
     = Ok errors /\
     _upper_alert_threshold fitted = Some (fst (three_sigma errors)) /\
     _lower_alert_threshold fitted = Some (snd (three_sigma errors))) /\
  (exists errors,
     mapM (reconstruction_error_of_chunk fitted)
       (split (chunker fitted) reference_data
          (Some features) (Some (_minimum_chunk_size features)) "timestamp")
     = Ok errors /\
     _upper_alert_threshold fitted <> Some (fst (three_sigma errors)) /\
     _lower_alert_threshold fitted <> Some (snd (three_sigma errors))).
Proof.
  split; [vm_compute; reflexivity|].
  split; [vm_compute; reflexivity|].
  split; [vm_compute; reflexivity|].
  split.
  - eexists. split; [vm_compute; reflexivity|].
    split; vm_compute; reflexivity.
  - eexists. split; [vm_compute; reflexivity|].
    split; vm_compute; discriminate.
Qed.

(** C5.  The feature names are documented as a list.  A list cannot be
    subscripted by the boolean mask that selects the missing columns, so
    on a data set that has rows both methods stop with a [TypeError]
    before any data-validation error is built, whether a declared column
    is missing (here ["z"]) or none is. *)
Theorem validation_with_a_list_of_names :
  new_calculator (PyList ["x"; "z"]%string)
  = Ok (unfitted (PyList ["x"; "z"]%string)) /\
  empty reference_data = false /\
  ~ In "z"%string (columns reference_data) /\
  _fit reference_data (unfitted (PyList ["x"; "z"]%string))
  = (unfitted (PyList ["x"; "z"]%string), Raise TypeError) /\
  _calculate reference_data (unfitted (PyList ["x"; "z"]%string))
  = (unfitted (PyList ["x"; "z"]%string), Raise TypeError) /\
  _fit reference_data (unfitted (PyList features))
  = (unfitted (PyList features), Raise TypeError).
Proof.
  split; [reflexivity|]. split; [reflexivity|].
  split; [cbn; intuition discriminate|].
  destruct (@validation_of_list_names backend reference_data
              (unfitted (PyList ["x"; "z"]%string)) ["x"; "z"]%string
              eq_refl eq_refl) as [Hfit Hcalc].
  destruct (@validation_of_list_names backend reference_data
              (unfitted (PyList features)) features eq_refl eq_refl)
    as [Hfit' _].
  repeat split; assumption.
Qed.

(** C6, as the claim words it, fails twice.  On an empty data set the
    error of an unfitted calculator is the data-validation error; on a
    data set with the feature columns the continuous / categorical split
    is rewritten before the call fails inside scikit-learn. *)
Lemma calculate_before_fit_counterexample :
  new_calculator (NdArray features) = Ok (unfitted (NdArray features)) /\
  snd (_calculate no_data (unfitted (NdArray features)))
  = Raise (InvalidArgumentsException no_rows_message) /\
  snd (_calculate reference_data (unfitted (NdArray features)))
  = Raise NotFittedError /\
  continuous_feature_column_names (unfitted (NdArray features)) = [] /\
  continuous_feature_column_names
    (fst (_calculate reference_data (unfitted (NdArray features))))
  = features /\
  fst (_calculate reference_data (unfitted (NdArray features)))
  <> unfitted (NdArray features).
Proof.
  split; [reflexivity|]. split; [reflexivity|].
  split; [vm_compute; reflexivity|]. split; [reflexivity|].
  assert (H : continuous_feature_column_names
                (fst (_calculate reference_data (unfitted (NdArray features))))
              = features) by (vm_compute; reflexivity).
  split; [exact H|]. intros Heq. rewrite Heq in H. discriminate H.
Qed.

(** C10.  Plotting writes into the table of the result object: the rows
    that [calculate] labelled ['reference'] read ['analysis'] after
    [plot(kind='drift')]. *)
Theorem plot_overwrites_the_period_column :
  snd (_calculate reference_data fitted) = Ok (data reference_result) /\
  map period (data reference_result) = ["reference"%string] /\
  map period (data (fst (plot reference_result "drift" false)))
  = ["analysis"%string] /\
  data (fst (plot reference_result "drift" false)) <> data reference_result.
Proof.
  split; [vm_compute; reflexivity|]. split; [reflexivity|].
  split; [reflexivity|].
  intros Heq. apply (f_equal (map period)) in Heq. discriminate Heq.
Qed.

End Divergences.

(* ================================================================== *)
(** * Further properties of the two modules *)

(** ** Selections of columns *)

Section SelectionFacts.

Lemma lookup_all_found name cs :
  lookup_all name cs <> [] <-> In name (map fst cs).
Proof.
  split.
  - intros H. destruct (in_dec string_dec name (map fst cs)) as [Hin|Hnot];
      [exact Hin|]. now apply lookup_all_absent in Hnot.
  - intros Hin H. unfold lookup_all in H.
    induction cs as [|[m w] cs IH]; [contradiction|].
    cbn [filter map fst] in *. destruct (String.eqb_spec m name) as [->|Hne].
    + discriminate.
    + destruct Hin as [Heq|Hin]; [contradiction|]. now apply IH.
Qed.

(** A selection returns when the frame has every label, and is a
    [KeyError] otherwise. *)
Lemma getitem_cols_outcome cs names :
  match getitem_cols cs names with
  | Ok X => incl names (map fst cs)
  | Raise e => e = KeyError /\ exists n, In n names /\ ~ In n (map fst cs)
  end.
Proof.
  induction names as [|n ns IH]; cbn [getitem_cols].
  - intros x [].
  - destruct (lookup_all n cs) as [|v vs] eqn:E.
    + split; [reflexivity|]. exists n. split; [now left|].
      intros Hin. apply lookup_all_found in Hin. contradiction.
    + assert (Hn : In n (map fst cs))
        by (apply lookup_all_found; rewrite E; discriminate).
      destruct (getitem_cols cs ns) as [X|e]; cbn [rbind].
      * intros x [<-|Hx]; [exact Hn|now apply IH].
      * destruct IH as (-> & m & Hm & Hnot). split; [reflexivity|].
        exists m. split; [now right|exact Hnot].
Qed.

Lemma getitem_cols_present cs names :
  incl names (map fst cs) -> exists X, getitem_cols cs names = Ok X.
Proof.
  intros Hincl. pose proof (getitem_cols_outcome cs names) as H.
  destruct (getitem_cols cs names) as [X|e]; [now exists X|].
  destruct H as (_ & n & Hn & Hnot). exfalso. apply Hnot. now apply Hincl.
Qed.

Lemma getitem_cols_missing cs names f :
  In f names -> ~ In f (map fst cs) -> getitem_cols cs names = Raise KeyError.
Proof.
  intros Hf Hnot. pose proof (getitem_cols_outcome cs names) as H.
  destruct (getitem_cols cs names) as [X|e].
  - exfalso. apply Hnot. now apply H.
  - now destruct H as (-> & _).
Qed.

(** Columns that a second block of the frame adds under the selected
    labels widen the selection. *)
Lemma getitem_cols_app a b names : forall Xb,
  getitem_cols b names = Ok Xb ->
  exists X, getitem_cols (a ++ b) names = Ok X /\
            length X
            = length Xb
              + list_sum (map (fun n => length (lookup_all n a)) names).
Proof.
  induction names as [|n ns IH]; intros Xb H; cbn [getitem_cols] in *.
  - injection H as <-. now exists [].
  - destruct (lookup_all n b) as [|v vs] eqn:E; [discriminate H|].
    destruct (getitem_cols b ns) as [Y|e]; [|discriminate H].
    cbn [rbind] in H. injection H as <-.
    destruct (IH Y eq_refl) as (X & HX & Hlen).
    rewrite lookup_all_app, E, HX.
    destruct (lookup_all n a ++ v :: vs) as [|w ws] eqn:Eapp;
      [now destruct (lookup_all n a)|].
    cbn [rbind]. exists ((w :: ws) ++ X). split; [reflexivity|].
    rewrite !length_app, Hlen, <- Eapp, length_app.
    cbn [map length]. rewrite ?length_app.
    unfold list_sum, column in *. cbn [fold_right]. lia.
Qed.

Lemma list_sum_positive {A} (f : A -> nat) l a :
  In a l -> 0 < f a -> 0 < list_sum (map f l).
Proof.
  induction l as [|b l IH]; intros Hin Hpos; [contradiction|].
  unfold list_sum in *. cbn [map fold_right].
  destruct Hin as [->|Hin]; [lia|]. specialize (IH Hin Hpos). lia.
Qed.


End SelectionFacts.

(** ** The constructor *)

Section Constructor.
Context {B : Backend}.


End Constructor.

(** ** The selected feature names *)

Section SelectedFeatureNames.
Variable Feature : Type.
Variable column_name : Feature -> string.
Variable list_of_set : list string -> list string.

(** X16.  Whatever order the set is listed in, the selected feature names are
    the names that are both selected and the column name of a feature,
    each once. *)
Theorem selected_feature_names_are_the_common_names selected_features features :
  (forall s x, In x (list_of_set s) <-> In x s) ->
  (forall s, NoDup s -> NoDup (list_of_set s)) ->
  NoDup (_get_selected_feature_names column_name list_of_set
           selected_features features) /\
  forall x,
    In x (_get_selected_feature_names column_name list_of_set
            selected_features features) <->
    In x selected_features /\
    exists f, In f features /\ column_name f = x.
Proof.
  intros Hin Hnd. unfold _get_selected_feature_names, set_intersection, py_set.
  split.
  - apply Hnd, NoDup_filter, NoDup_nodup.
  - intros x. rewrite Hin, filter_In, nodup_In, existsb_exists. split.
    + intros (Hs & y & Hy & Heq). apply String.eqb_eq in Heq. subst y.
      apply nodup_In, in_map_iff in Hy. destruct Hy as (f & Hf & Hfin).
      split; [exact Hs|]. now exists f.
    + intros (Hs & f & Hf & Heq). split; [exact Hs|].
      exists x. split; [|apply String.eqb_refl].
      apply nodup_In, in_map_iff. now exists f.
Qed.

End SelectedFeatureNames.

(** ** The minimum chunk size, again *)

Section MinimumChunkSizeOrder.

Lemma pow6_lt_inv (a b : Z) : (0 <= a)%Z -> (0 <= b)%Z ->
  (a ^ 6 < b ^ 6)%Z -> (a < b)%Z.
Proof.
  intros Ha Hb H. destruct (Z_lt_le_dec a b) as [Hlt|Hle]; [exact Hlt|].
  exfalso. assert (b ^ 6 <= a ^ 6)%Z by (apply Z.pow_le_mono_l; lia). lia.
Qed.

(** X17.  The minimum chunk size is the largest integer whose sixth power is
    at most [20^6 * n^5], with [n] the number of features. *)
Theorem minimum_chunk_size_at_least features (k : Z) :
  (0 <= k)%Z ->
  (k <= _minimum_chunk_size features)%Z <->
  (k ^ 6 <= 20 ^ 6 * Z.of_nat (length features) ^ 5)%Z.
Proof.
  intros Hk. pose proof (minimum_chunk_size_floor features) as H.
  cbv zeta in H. destruct H as (Hm & Hlo & Hhi). split.
  - intros Hle.
    assert (k ^ 6 <= _minimum_chunk_size features ^ 6)%Z
      by (apply Z.pow_le_mono_l; lia).
    lia.
  - intros Hle.
    assert (k < _minimum_chunk_size features + 1)%Z
      by (apply pow6_lt_inv; lia).
    lia.
Qed.

(** X18.  More features never lower the minimum chunk size. *)
Theorem minimum_chunk_size_grows features features' :
  length features <= length features' ->
  (_minimum_chunk_size features <= _minimum_chunk_size features')%Z.
Proof.
  intros Hlen.
  pose proof (minimum_chunk_size_floor features) as H.
  pose proof (minimum_chunk_size_floor features') as H'.
  cbv zeta in H, H'.
  destruct H as (Hm & Hlo & _). destruct H' as (Hm' & _ & Hhi').
  assert (Hpow : (Z.of_nat (length features) ^ 5
                  <= Z.of_nat (length features') ^ 5)%Z)
    by (apply Z.pow_le_mono_l; lia).
  assert (_minimum_chunk_size features < _minimum_chunk_size features' + 1)%Z
    by (apply pow6_lt_inv; lia).
  lia.
Qed.

(** X19.  With at least one feature the minimum chunk size lies between 20
    and 20 times the number of features. *)
Theorem minimum_chunk_size_bounds features :
  features <> [] ->
  (20 <= _minimum_chunk_size features
   <= 20 * Z.of_nat (length features))%Z.
Proof.
  intros Hne.
  assert (Hn : (1 <= Z.of_nat (length features))%Z)
    by (destruct features; [contradiction|cbn [length]; lia]).
  pose proof (minimum_chunk_size_floor features) as H. cbv zeta in H.
  destruct H as (Hm & Hlo & Hhi).
  set (n := Z.of_nat (length features)) in *.
  set (m := _minimum_chunk_size features) in *.
  assert (H1 : (1 <= n ^ 5)%Z)
    by (change 1%Z with (1 ^ 5)%Z at 1; apply Z.pow_le_mono_l; lia).
  assert (H5 : (n ^ 5 <= n ^ 6)%Z)
    by (apply Z.pow_le_mono_r; lia).
  split.
  - assert (20 < m + 1)%Z by (apply pow6_lt_inv; lia). lia.
  - assert (m < 20 * n + 1)%Z by (apply pow6_lt_inv; lia). lia.
Qed.

End MinimumChunkSizeOrder.

(** ** The paths through [fit] *)

Ltac fields_in H :=
  unfold set_feature_split, set_imputer_categorical, set_imputer_continuous,
    set_artifacts, set_alert_thresholds, set_previous_reference_results,
    fit_imputer, result_table, record_of_chunk, reconstruction_error_of_chunk
    in H;
  cbv beta iota in H;
  cbn [chunker feature_column_names continuous_feature_column_names
       categorical_feature_column_names timestamp_column_name _n_components
       _scaler _encoder _pca _upper_alert_threshold _lower_alert_threshold
       _imputer_categorical _imputer_continuous previous_reference_results
       strategy imputer_fitted fst snd rbind] in H.

Ltac fields_goal :=
  unfold set_feature_split, set_imputer_categorical, set_imputer_continuous,
    set_artifacts, set_alert_thresholds, set_previous_reference_results,
    fit_imputer, result_table, record_of_chunk, reconstruction_error_of_chunk;
  cbv beta iota;
  cbn [chunker feature_column_names continuous_feature_column_names
       categorical_feature_column_names timestamp_column_name _n_components
       _scaler _encoder _pca _upper_alert_threshold _lower_alert_threshold
       _imputer_categorical _imputer_continuous previous_reference_results
       strategy imputer_fitted fst snd rbind].

(** Follow the run recorded in [H], one test after the other. *)
Ltac walk H :=
  repeat
    match type of H with
    | context [if ?b then _ else _] =>
        destruct b eqn:?; fields_in H; try discriminate H
    | context [match ?r with Ok _ => _ | Raise _ => _ end] =>
        destruct r eqn:?; fields_in H; try discriminate H
    end.

(** Take the same turns in the goal. *)
Ltac replay :=
  repeat
    match goal with
    | E : ?t = _ |- context [?t] => rewrite E; fields_goal
    end.

Ltac walk_fit H :=
  unfold _fit, bind, read, lift, update, raise, ret in H;
  fields_in H; walk H;
  try (rewrite alert_thresholds_unfold in H; fields_in H; walk H);
  try (rewrite calculate_unfold in H; fields_in H; walk H).

Ltac replay_fit :=
  unfold _fit, bind, read, lift, update, raise, ret; fields_goal; replay;
  try (rewrite alert_thresholds_unfold; fields_goal; replay);
  try (rewrite calculate_unfold; fields_goal; replay).

Section FitPaths.
Context {B : Backend}.

(** X5.  Fitting again on the same reference data changes nothing: the second
    [fit] succeeds and leaves every field as the first one left it. *)
Theorem fit_is_idempotent ref c c1 :
  _fit ref c = (c1, Ok tt) -> _fit ref c1 = (c1, Ok tt).
Proof.
  intros H. destruct c as [ch ns cont cat ts nc sc en pc up lo ic icn snap].
  walk_fit H; injection H as H; subst c1; replay_fit; reflexivity.
Qed.

(** X6.  What a successful [fit] leaves does not depend on the artifacts, the
    thresholds, the feature split or the reference results that the
    calculator held before: two calculators with the same chunker,
    names, timestamp column, number of components and imputers end in
    the same state. *)
Theorem fit_overwrites_earlier_fit ref c c' c1 :
  chunker c' = chunker c ->
  feature_column_names c' = feature_column_names c ->
  timestamp_column_name c' = timestamp_column_name c ->
  _n_components c' = _n_components c ->
  _imputer_categorical c' = _imputer_categorical c ->
  _imputer_continuous c' = _imputer_continuous c ->
  _fit ref c = (c1, Ok tt) -> _fit ref c' = (c1, Ok tt).
Proof.
  destruct c as [ch ns cont cat ts nc sc en pc up lo ic icn snap].
  destruct c' as [ch' ns' cont' cat' ts' nc' sc' en' pc' up' lo' ic' icn' snap'].
  cbn [chunker feature_column_names timestamp_column_name _n_components
       _imputer_categorical _imputer_continuous].
  intros -> -> -> -> -> -> H.
  walk_fit H; injection H as H; subst c1; replay_fit; reflexivity.
Qed.

(** X7.  A [fit] that raises leaves the stored reference results as they
    were. *)
Theorem failed_fit_keeps_reference_results ref c c1 e :
  _fit ref c = (c1, Raise e) ->
  previous_reference_results c1 = previous_reference_results c.
Proof.
  intros H. destruct c as [ch ns cont cat ts nc sc en pc up lo ic icn snap].
  walk_fit H; injection H as H; subst c1; reflexivity.
Qed.

(** X12.  The hazard of typing the features anew on every call.  When the
    reference data had no categorical feature, [fit] leaves the
    categorical imputer unfitted; a later data set in which a feature is
    typed as categorical then makes [calculate] fail inside scikit-learn
    on its first chunk. *)
Theorem calculate_meets_an_unfitted_imputer ref c c1 data first rest :
  _fit ref c = (c1, Ok tt) ->
  imputer_fitted (_imputer_categorical c) = None ->
  snd (_split_features_by_type ref (elements (feature_column_names c))) = [] ->
  empty data = false ->
  missing_columns (feature_column_names c) data = Ok [] ->
  snd (_split_features_by_type data (elements (feature_column_names c))) <> [] ->
  split (chunker c) data
    (Some (elements (feature_column_names c)))
    (Some (_minimum_chunk_size (elements (feature_column_names c))))
    (timestamp_column_name c) = first :: rest ->
  incl (snd (_split_features_by_type data (elements (feature_column_names c))))
       (columns (Chunk.data first)) ->
  snd (_calculate data c1) = Raise NotFittedError.
Proof.
  destruct c as [ch ns cont cat ts nc sc en pc up lo ic icn snap].
  cbn [chunker feature_column_names timestamp_column_name _imputer_categorical].
  intros H Hic Hs Hne Hm Hcat Hchunks Hincl.
  walk_fit H;
    try (match goal with
         | E : (0 <? length (snd _)) = true |- _ =>
             rewrite Hs in E; discriminate E
         end);
    injection H as H; subst c1;
    rewrite calculate_unfold; fields_goal; rewrite Hne, Hm;
    cbn [length Nat.ltb Nat.leb]; fields_goal; rewrite Hchunks;
    cbn [mapM]; unfold _calculate_reconstruction_error_for_data, reset_index;
    destruct (getitem_cols_present (cols (Chunk.data first)) Hincl) as (X & HX);
    destruct (snd (_split_features_by_type data (elements ns))) as [|k ks];
    try contradiction;
    cbn [length Nat.ltb Nat.leb]; unfold getitem; rewrite HX; cbn [rbind];
    unfold imputer_transform; cbn [imputer_fitted]; rewrite Hic; reflexivity.
Qed.

(** X2.  A [fit] that succeeds was given a data set that has rows and holds
    every declared feature. *)
Theorem fit_success_implies_valid_input ref c c1 :
  _fit ref c = (c1, Ok tt) ->
  empty ref = false /\
  incl (elements (feature_column_names c)) (columns ref).
Proof.
  intros H. destruct c as [ch ns cont cat ts nc sc en pc up lo ic icn snap].
  cbn [feature_column_names].
  unfold _fit, bind, read, lift, update, raise, ret in H. fields_in H.
  destruct (empty ref) eqn:He; [discriminate H|]. split; [reflexivity|].
  fields_in H.
  destruct ns as [l|l]; [discriminate H|]. cbn [elements].
  rewrite missing_columns_of_array in H. fields_in H.
  destruct (0 <? length (filter
              (fun n => negb (existsb (String.eqb n) (columns ref))) l)) eqn:Hl;
    [discriminate H|].
  clear H. apply Nat.ltb_ge in Hl.
  intros f Hf.
  destruct (existsb (String.eqb f) (columns ref)) eqn:Hex.
  - apply existsb_exists in Hex. destruct Hex as (g & Hg & Heq).
    apply String.eqb_eq in Heq. now subst g.
  - exfalso.
    assert (Hin : In f (filter
              (fun n => negb (existsb (String.eqb n) (columns ref))) l))
      by (apply filter_In; split; [exact Hf|now rewrite Hex]).
    destruct (filter _ l); [contradiction|cbn in Hl; lia].
Qed.


(** X10.  What [calculate] returns or raises does not depend on the data sets
    it was called on before: the feature split an earlier call left is
    overwritten before it is read. *)
Theorem calculate_ignores_earlier_calls data earlier c :
  snd (_calculate data (fst (_calculate earlier c)))
  = snd (_calculate data c).
Proof.
  destruct c as [ch ns cont cat ts nc sc en pc up lo ic icn snap].
  rewrite !calculate_unfold. fields_goal.
  destruct (empty earlier); fields_goal.
  - reflexivity.
  - destruct (missing_columns ns earlier) as [m|e]; fields_goal.
    + destruct (0 <? length m); fields_goal; [reflexivity|].
      destruct (empty data); [reflexivity|].
      destruct (missing_columns ns data) as [m'|e']; [|reflexivity].
      destruct (0 <? length m'); reflexivity.
    + reflexivity.
Qed.

Lemma fit_keeps_chunker ref c c1 r :
  _fit ref c = (c1, r) ->
  chunker c1 = chunker c /\ timestamp_column_name c1 = timestamp_column_name c.
Proof.
  intros H. destruct c as [ch ns cont cat ts nc sc en pc up lo ic icn snap].
  walk_fit H; injection H as H _; subst c1; split; reflexivity.
Qed.

(** X4.  Whatever its outcome, [fit] leaves the arguments of the constructor
    as they were: the chunker, the feature names, the timestamp column,
    the number of components and the strategy of both imputers. *)
Theorem fit_keeps_the_configuration ref c :
  chunker (fst (_fit ref c)) = chunker c /\
  feature_column_names (fst (_fit ref c)) = feature_column_names c /\
  timestamp_column_name (fst (_fit ref c)) = timestamp_column_name c /\
  _n_components (fst (_fit ref c)) = _n_components c /\
  strategy (_imputer_categorical (fst (_fit ref c)))
  = strategy (_imputer_categorical c) /\
  strategy (_imputer_continuous (fst (_fit ref c)))
  = strategy (_imputer_continuous c).
Proof.
  destruct (_fit ref c) as [c1 r] eqn:H. cbn [fst].
  destruct c as [ch ns cont cat ts nc sc en pc up lo ic icn snap].
  walk_fit H; injection H as H _; subst c1; repeat split; reflexivity.
Qed.

End FitPaths.

(** ** The thresholds a fit leaves *)

Section FittedThresholds.
Context {B : Backend}.

(** X8.  After a successful [fit] both thresholds are set, and they are
    either both NaN or two numbers with the lower one at most the upper
    one. *)
Theorem thresholds_after_fit_are_ordered ref c c1 :
  (forall s x, series_std s = Some x -> (0 <= x)%Q) ->
  _fit ref c = (c1, Ok tt) ->
  exists upper lower,
    _upper_alert_threshold c1 = Some upper /\
    _lower_alert_threshold c1 = Some lower /\
    (fle lower upper \/ (upper = nan /\ lower = nan)).
Proof.
  intros Hstd H. apply fit_thresholds in H.
  destruct H as (errors & _ & Hup & Hlo).
  exists (fst (three_sigma errors)), (snd (three_sigma errors)).
  split; [exact Hup|]. split; [exact Hlo|].
  unfold three_sigma. cbn [fst snd].
  destruct (series_mean (map Num errors)) as [m|]; [|now right].
  destruct (series_std (map Num errors)) as [s|] eqn:Hs; [|now right].
  left. apply Hstd in Hs. cbn. lra.
Qed.

(** X9.  When the reference data make a single chunk, the standard deviation
    of the one reference error is NaN, both thresholds are NaN, and no
    row of any later table carries an alert. *)
Theorem single_reference_chunk_never_alerts ref c c1 chunk data c2 rows row :
  (forall e, series_std [Num e] = nan) ->
  _fit ref c = (c1, Ok tt) ->
  split (chunker c) ref None None (timestamp_column_name c) = [chunk] ->
  _calculate data c1 = (c2, Ok rows) -> In row rows ->
  upper_threshold row = Some nan /\ lower_threshold row = Some nan /\
  alert row = false.
Proof.
  intros Hstd Hfit Hone Hcalc Hrow.
  destruct (fit_keeps_chunker _ _ Hfit) as [Hch Hts].
  apply fit_thresholds in Hfit. destruct Hfit as (errors & Hm & Hup & Hlo).
  rewrite Hch, Hts, Hone in Hm. cbn [mapM] in Hm.
  destruct (reconstruction_error_of_chunk c1 chunk) as [e|]; [|discriminate Hm].
  cbn [rbind] in Hm. injection Hm as <-.
  unfold three_sigma in Hup, Hlo. cbn [fst snd map] in Hup, Hlo.
  rewrite Hstd in Hup, Hlo.
  assert (Hnan : forall m : float, fadd m (fmul (Some 3%Q) nan) = nan /\
                                   fsub m (fmul (Some 3%Q) nan) = nan)
    by (intros [m|]; split; reflexivity).
  destruct (Hnan (series_mean [Num e])) as [Ha Hs].
  rewrite Ha in Hup. rewrite Hs in Hlo.
  apply calculate_returns in Hcalc.
  destruct Hcalc as (Hframe & Htable & _).
  apply up_to_feature_split_fields in Hframe.
  destruct Hframe as (_ & _ & _ & Hup2 & Hlo2 & _).
  apply result_table_rows in Htable.
  destruct (Forall2_In_r _ Htable Hrow) as (ch & _ & _ & _ & Hl & Hu & Halert).
  rewrite Hup2, Hup in Hu, Halert. rewrite Hlo2, Hlo in Hl, Halert.
  split; [exact Hu|]. split; [exact Hl|].
  unfold alert_of, fgt, flt, nan in Halert.
  destruct (reconstruction_error row); now injection Halert.
Qed.

End FittedThresholds.

(** ** Where the reconstruction error of a batch fails *)

Section ReconstructionFailures.
Context {B : Backend}.


(** An imputation statement that returns keeps the labels of the
    frame. *)
Lemma guarded_imputation_labels names imputer (df df' : DataFrame) :
  (if 0 <? length names then
     X <- getitem df names ;;
     T <- imputer_transform imputer X ;;
     setitem df names T
   else Ok df)%result = Ok df' ->
  columns df' = columns df.
Proof.
  destruct (0 <? length names); [|now intros [= <-]].
  unfold getitem.
  pose proof (getitem_cols_outcome (cols df) names) as Hincl.
  destruct (getitem_cols (cols df) names) as [X|e]; [|discriminate].
  cbn [rbind]. destruct (imputer_transform imputer X) as [T|e];
    [|discriminate].
  cbn [rbind]. unfold setitem.
  destruct (_ && _); [|discriminate].
  intros [= <-]. unfold columns. cbn [cols]. now apply set_columns_labels.
Qed.

(** X14.  On a batch that lacks a feature column the function never returns
    an error value: it raises, whatever the artifacts are. *)
Theorem missing_feature_never_returns
  (features categorical continuous : list string) (batch : DataFrame)
  encoder scaler pca imputer_categorical imputer_continuous f :
  In f features -> ~ In f (columns batch) ->
  forall error,
    _calculate_reconstruction_error_for_data features categorical continuous
      batch encoder scaler pca imputer_categorical imputer_continuous
    <> Ok error.
Proof.
  intros Hf Hnot error.
  unfold _calculate_reconstruction_error_for_data, reset_index.
  destruct (if 0 <? length categorical then _ else _) as [d1|e] eqn:H1;
    [|discriminate].
  apply guarded_imputation_labels in H1. cbn [rbind].
  destruct (if 0 <? length continuous then _ else _) as [d2|e] eqn:H2;
    [|discriminate].
  apply guarded_imputation_labels in H2. cbn [rbind].
  destruct (attr encoder) as [enc|e]; [|discriminate]. cbn [rbind].
  unfold getitem at 1.
  rewrite (@getitem_cols_missing (cols d2) features f Hf); [discriminate|].
  fold (columns d2). now rewrite H2, H1.
Qed.

(** The steps up to the distance: on a well-formed batch with fitted
    artifacts that keep the shape of their input, the function reaches
    [_calculate_distance] on the preprocessed columns followed by the
    reconstructed ones. *)
Lemma reconstruction_reaches_the_distance
  (features categorical continuous : list string) (batch : DataFrame)
  (encoder : CountEncoder) (scaler : StandardScaler) (pca : PCA)
  (imputer_categorical imputer_continuous : SimpleImputer)
  (f_cat f_cont : matrix -> matrix) :
  wf_frame batch ->
  NoDup features -> incl features (columns batch) ->
  incl categorical (columns batch) -> incl continuous (columns batch) ->
  imputer_fitted imputer_categorical = Some f_cat ->
  imputer_fitted imputer_continuous = Some f_cont ->
  preserves_shape_on (length categorical) f_cat ->
  preserves_shape_on (length continuous) f_cont ->
  preserves_shape_on (length features) (encoder_transform encoder) ->
  preserves_shape_on (length features) (scaler_transform scaler) ->
  preserves_shape_on (length features) (reconstruct pca) ->
  exists (d : DataFrame) (S R : fmatrix),
    wf_frame d /\ columns d = columns batch /\
    getitem d features = Ok (cells S) /\
    length (cells S) = length features /\
    length (cells R) = length features /\
    _calculate_reconstruction_error_for_data features categorical continuous
      batch (Some encoder) (Some scaler) (Some pca)
      imputer_categorical imputer_continuous
    = (let data :=
         {| nrows := nrows batch;
            cols := cols d ++ combine (map rf features) (cells R) |} in
       rc_error <- _calculate_distance data features (map rf features) ;;
       let data := assign data "rc_error" (map Num rc_error) in
       res <- getcol data "rc_error" ;;
       Ok (series_mean res))%result.
Proof.
  intros Hwf Hnd Hfeat Hcat Hcont Hic Hin Hfc Hfn Henc Hsc Hpca.
  destruct (impute_total Hwf Hcat Hcont Hfc Hfn)
    as (d2 & Himp & Hwf2 & Hc2 & Hr2).
  assert (Hfeat2 : incl features (columns d2)) by now rewrite Hc2.
  destruct (getitem_shape Hwf2 Hfeat2) as (raw & Hraw & Hlraw & Hsraw).
  destruct (Henc _ _ Hlraw Hsraw) as [Hle Hse].
  destruct (@setitem_present d2 features (encoder_transform encoder raw)
              Hwf2 Hfeat2 Hle Hse)
    as (d3 & Hset3 & Hwf3 & Hc3 & Hr3 & Hget3).
  specialize (Hget3 Hnd).
  set (S := scaler_transform scaler (encoder_transform encoder raw)) in *.
  destruct (Hsc _ _ Hle Hse) as [Hls Hss]. fold S in Hls, Hss.
  assert (Hfeat3 : incl features (columns d3)) by now rewrite Hc3.
  assert (HlS : length (cells S) = length features)
    by (unfold cells; now rewrite length_map).
  assert (HsS : Forall (fun v => length v = nrows d3) (cells S))
    by (rewrite Hr3; now apply cells_shape).
  destruct (@setitem_present d3 features (cells S) Hwf3 Hfeat3 HlS HsS)
    as (d4 & Hset4 & Hwf4 & Hc4 & Hr4 & Hget4).
  specialize (Hget4 Hnd).
  set (R := reconstruct pca (cells S)) in *.
  rewrite Hr3 in HsS.
  destruct (Hpca _ _ HlS HsS) as [HlR HsR]. fold R in HlR, HsR.
  assert (HlR' : length (cells R) = length (map rf features))
    by (unfold cells; now rewrite !length_map).
  destruct (@frame_of_array_aligned (cells R) (map rf features) (nrows d2)
              HlR' (cells_shape HsR))
    as (rdf & Hrdf & Hcols & Hlens & Hmax).
  assert (Hcat4 : concat_columns d4 rdf
                  = {| nrows := nrows d2;
                       cols := cols d4 ++ combine (map rf features) (cells R) |}).
  { rewrite <- Hcols. apply concat_columns_aligned.
    - destruct Hwf4 as [_ H4]. now rewrite Hr4, Hr3 in H4.
    - exact Hlens.
    - now rewrite Hr4, Hr3. }
  exists d4, S, R.
  split; [exact Hwf4|]. split; [congruence|]. split; [exact Hget4|].
  split; [exact HlS|]. split; [now rewrite HlR', length_map|].
  unfold _calculate_reconstruction_error_for_data, reset_index.
  rewrite (@guarded_imputation_then _ _ _ _ _ _ _ _ _ Hic Hin), Himp.
  cbn [rbind attr]. rewrite Hraw. cbn [rbind]. rewrite Hset3. cbn [rbind].
  rewrite Hget3. cbn [rbind]. fold S. rewrite Hset4. cbn [rbind].
  rewrite Hget4. cbn [rbind].
  change (pca_inverse_transform pca (pca_transform pca (cells S))) with R.
  rewrite Hrdf. cbn [rbind]. rewrite Hcat4, Hr2. reflexivity.
Qed.

(** X15.  A batch that already has a column labelled [rf_<feature>] makes the
    selection of the reconstructed columns wider than the selection of
    the features, and the function stops with a [ValueError]. *)
Theorem reconstructed_label_collision
  (features categorical continuous : list string) (batch : DataFrame)
  (encoder : CountEncoder) (scaler : StandardScaler) (pca : PCA)
  (imputer_categorical imputer_continuous : SimpleImputer)
  (f_cat f_cont : matrix -> matrix) (g : string) :
  wf_frame batch ->
  NoDup features -> incl features (columns batch) ->
  incl categorical (columns batch) -> incl continuous (columns batch) ->
  (forall f, In f features -> ~ In f (map rf features)) ->
  In g features -> In (rf g) (columns batch) ->
  imputer_fitted imputer_categorical = Some f_cat ->
  imputer_fitted imputer_continuous = Some f_cont ->
  preserves_shape_on (length categorical) f_cat ->
  preserves_shape_on (length continuous) f_cont ->
  preserves_shape_on (length features) (encoder_transform encoder) ->
  preserves_shape_on (length features) (scaler_transform scaler) ->
  preserves_shape_on (length features) (reconstruct pca) ->
  _calculate_reconstruction_error_for_data features categorical continuous
    batch (Some encoder) (Some scaler) (Some pca)
    imputer_categorical imputer_continuous
  = Raise ValueError.
Proof.
  intros Hwf Hnd Hfeat Hcat Hcont Hplain Hg Hcol Hic Hin Hfc Hfn Henc Hsc Hpca.
  destruct (@reconstruction_reaches_the_distance features categorical
              continuous batch encoder scaler pca imputer_categorical
              imputer_continuous f_cat f_cont Hwf Hnd Hfeat Hcat Hcont
              Hic Hin Hfc Hfn Henc Hsc Hpca)
    as (d & S & R & Hwfd & Hcd & Hget & HlS & HlR & ->).
  cbv zeta. unfold _calculate_distance, getitem. cbn [cols nrows].
  assert (Hlabels : forall f, In f (map fst (combine (map rf features) (cells R)))
                              -> In f (map rf features)).
  { intros f Hf'. apply in_map_iff in Hf'.
    destruct Hf' as ([m v] & Hm & Hin'). simpl in Hm. subst m.
    now apply in_combine_l in Hin'. }
  rewrite getitem_cols_app_l
    by (intros f Hf Hin'; apply (Hplain f Hf); now apply Hlabels).
  unfold getitem in Hget. rewrite Hget. cbn [rbind].
  assert (Hrec : getitem_cols (combine (map rf features) (cells R))
                   (map rf features) = Ok (cells R)).
  { apply getitem_cols_combine; [now apply rf_labels_distinct|].
    now rewrite length_map. }
  destruct (@getitem_cols_app (cols d) _ _ _ Hrec) as (X & -> & Hlen).
  cbn [rbind].
  assert (Hpos : 0 < list_sum (map (fun n => length (lookup_all n (cols d)))
                                   (map rf features))).
  { apply list_sum_positive with (a := rf g); [now apply in_map|].
    assert (Hne : lookup_all (rf g) (cols d) <> []).
    { apply lookup_all_found. fold (columns d). now rewrite Hcd. }
    destruct (lookup_all (rf g) (cols d)); [contradiction|cbn; lia]. }
  assert (Hwide : (length X =? length (cells S)) = false).
  { apply Nat.eqb_neq. unfold matrix, column in *. lia. }
  now rewrite Hwide.
Qed.

Lemma reconstruction_needs_the_artifacts
  features categorical continuous batch encoder scaler pca
  imputer_categorical imputer_continuous error :
  encoder = None \/ scaler = None \/ pca = None ->
  _calculate_reconstruction_error_for_data features categorical continuous
    batch encoder scaler pca imputer_categorical imputer_continuous
  <> Ok error.
Proof.
  intros Hnone. unfold _calculate_reconstruction_error_for_data.
  destruct (if 0 <? length categorical then _ else _) as [d1|e];
    [|discriminate].
  cbn [rbind].
  destruct (if 0 <? length continuous then _ else _) as [d2|e];
    [|discriminate].
  cbn [rbind].
  destruct encoder as [enc|]; [|discriminate]. cbn [attr rbind].
  destruct (getitem d2 features) as [X|e]; [|discriminate]. cbn [rbind].
  destruct (setitem d2 features _) as [d3|e]; [|discriminate]. cbn [rbind].
  destruct scaler as [sc|]; [|discriminate]. cbn [attr rbind].
  destruct (getitem d3 features) as [X'|e]; [|discriminate]. cbn [rbind].
  destruct (setitem d3 features _) as [d4|e]; [|discriminate]. cbn [rbind].
  destruct pca as [p|]; [|discriminate].
  destruct Hnone as [H|[H|H]]; discriminate H.
Qed.

(** X11.  A calculator that lacks the encoder, the scaler or the PCA returns
    no table: as soon as the data make a chunk, [calculate] raises. *)
Theorem calculate_without_artifacts_never_returns data c :
  _encoder c = None \/ _scaler c = None \/ _pca c = None ->
  split (chunker c) data
    (Some (elements (feature_column_names c)))
    (Some (_minimum_chunk_size (elements (feature_column_names c))))
    (timestamp_column_name c) <> [] ->
  forall rows, snd (_calculate data c) <> Ok rows.
Proof.
  intros Hnone Hchunks rows Hrows.
  destruct (_calculate data c) as [c' r] eqn:Hcalc. cbn [snd] in Hrows.
  subst r. apply calculate_returns in Hcalc.
  destruct Hcalc as (Hframe & Htable & _).
  destruct (up_to_feature_split_fields Hframe) as (Hch & Hns & Hts & _).
  destruct (up_to_feature_split_artifacts Hframe) as (He & Hs & Hp & _).
  apply result_table_rows in Htable. rewrite Hch, Hns, Hts in Htable.
  destruct Htable as [|chunk row chunks rows' (_ & Herr & _) _];
    [now apply Hchunks|].
  revert Herr. apply reconstruction_needs_the_artifacts.
  now rewrite He, Hs, Hp.
Qed.

End ReconstructionFailures.

(** ** Plotting *)

Section PlotFacts.
Context {B : Backend}.

Lemma set_period_twice value (table : list Row) :
  map (set_period value) (map (set_period value) table)
  = map (set_period value) table.
Proof. rewrite map_map. apply map_ext. reflexivity. Qed.

Lemma set_period_last value value' (table : list Row) :
  map (set_period value) (map (set_period value') table)
  = map (set_period value) table.
Proof. rewrite map_map. apply map_ext. reflexivity. Qed.

Lemma calculate_ignores_reference_results data snapshot c :
  snd (_calculate data (set_previous_reference_results snapshot c))
  = snd (_calculate data c).
Proof.
  destruct c as [ch ns cont cat ts nc sc en pc up lo ic icn snap].
  rewrite !calculate_unfold. fields_goal.
  destruct (empty data); [reflexivity|].
  destruct (missing_columns ns data) as [m|e]; [|reflexivity].
  destruct (0 <? length m); reflexivity.
Qed.

(** X20.  Plotting a second time with the same arguments gives the same
    figure or the same exception, and leaves the result object and the
    calculator as the first call left them. *)
Theorem plot_is_idempotent self kind plot_reference :
  plot (fst (plot self kind plot_reference)) kind plot_reference
  = plot self kind plot_reference.
Proof.
  unfold plot. destruct (String.eqb kind "drift"); [|reflexivity].
  unfold _plot_drift. destruct plot_reference.
  - destruct (previous_reference_results (calculator self)) as [r|] eqn:Hr;
      cbn [fst data calculator].
    + destruct (calculator self)
        as [ch ns cont cat ts nc sc en pc up lo ic icn snap].
      unfold set_previous_reference_results.
      cbn [previous_reference_results chunker feature_column_names
           continuous_feature_column_names categorical_feature_column_names
           timestamp_column_name _n_components _scaler _encoder _pca
           _upper_alert_threshold _lower_alert_threshold
           _imputer_categorical _imputer_continuous].
      now rewrite !set_period_twice.
    + rewrite Hr. now rewrite set_period_twice.
  - cbn [fst data calculator]. now rewrite set_period_twice.
Qed.

(** X21.  Asked for the reference results of a calculator that holds none,
    [plot] raises a [TypeError]; by then the period column of the
    result's own table reads ['analysis']. *)
Theorem plot_without_reference_results self :
  previous_reference_results (calculator self) = None ->
  plot self "drift" true
  = ({| data := map (set_period "analysis") (data self);
        calculator := calculator self |},
     Raise TypeError).
Proof.
  intros Hr. unfold plot, _plot_drift. cbn [String.eqb Ascii.eqb Bool.eqb].
  now rewrite Hr.
Qed.

(** X22.  Plotting changes the two period columns and nothing else: the rows
    of the result and of the stored reference results keep every other
    entry, and the calculator keeps every other field. *)
Theorem plot_changes_only_the_period_columns self kind plot_reference value :
  map (set_period value) (data (fst (plot self kind plot_reference)))
  = map (set_period value) (data self) /\
  option_map (map (set_period value))
    (previous_reference_results
       (calculator (fst (plot self kind plot_reference))))
  = option_map (map (set_period value))
      (previous_reference_results (calculator self)) /\
  set_previous_reference_results None
    (calculator (fst (plot self kind plot_reference)))
  = set_previous_reference_results None (calculator self).
Proof.
  unfold plot. destruct (String.eqb kind "drift"); cbn [fst];
    [|repeat split].
  unfold _plot_drift. destruct plot_reference.
  - destruct (previous_reference_results (calculator self)) as [r|] eqn:Hr;
      cbn [fst data calculator].
    + rewrite set_period_last. split; [reflexivity|].
      unfold set_previous_reference_results.
      cbn [previous_reference_results chunker feature_column_names
           continuous_feature_column_names categorical_feature_column_names
           timestamp_column_name _n_components _scaler _encoder _pca
           _upper_alert_threshold _lower_alert_threshold
           _imputer_categorical _imputer_continuous option_map].
      now rewrite set_period_last.
    + rewrite set_period_last, Hr. repeat split.
  - cbn [fst data calculator]. rewrite set_period_last. repeat split.
Qed.

(** X23.  A plot in between does not change what [calculate] returns. *)
Theorem plot_keeps_what_calculate_returns self kind plot_reference batch :
  snd (_calculate batch (calculator (fst (plot self kind plot_reference))))
  = snd (_calculate batch (calculator self)).
Proof.
  unfold plot. destruct (String.eqb kind "drift"); cbn [fst]; [|reflexivity].
  unfold _plot_drift. destruct plot_reference; [|reflexivity].
  destruct (previous_reference_results (calculator self)) as [r|];
    cbn [fst calculator]; [|reflexivity].
  apply calculate_ignores_reference_results.
Qed.

End PlotFacts.

(** ** The further properties at a concrete input *)

Section FurtherWitnesses.
Import Demo Cases.

Lemma fit_is_idempotent_witness :
  _fit reference_data (unfitted (NdArray features)) = (fitted, Ok tt) /\
  _fit reference_data fitted = (fitted, Ok tt).
Proof.
  split; [apply fit_reference_data|].
  apply (@fit_is_idempotent backend reference_data
           (unfitted (NdArray features)) fitted).
  apply fit_reference_data.
Defined.

Lemma fit_overwrites_earlier_fit_witness :
  stale_calculator <> unfitted (NdArray features) /\
  _fit reference_data (unfitted (NdArray features)) = (fitted, Ok tt) /\
  _fit reference_data stale_calculator = (fitted, Ok tt).
Proof.
  split; [discriminate|]. split; [apply fit_reference_data|].
  apply (@fit_overwrites_earlier_fit backend reference_data
           (unfitted (NdArray features)) stale_calculator fitted);
    [reflexivity..|apply fit_reference_data].
Defined.

Lemma fit_labelled_batch :
  _fit labelled_batch fitted
  = (fst (_fit labelled_batch fitted), Raise ValueError).
Proof.
  assert (H : snd (_fit labelled_batch fitted) = Raise ValueError)
    by (vm_compute; reflexivity).
  destruct (_fit labelled_batch fitted) as [c r].
  cbn [fst snd] in *. now subst.
Qed.

Lemma failed_fit_keeps_reference_results_witness :
  _fit labelled_batch fitted
  = (fst (_fit labelled_batch fitted), Raise ValueError) /\
  previous_reference_results (fst (_fit labelled_batch fitted))
  = previous_reference_results fitted.
Proof.
  split; [apply fit_labelled_batch|].
  apply (@failed_fit_keeps_reference_results backend labelled_batch fitted
           (fst (_fit labelled_batch fitted)) ValueError).
  apply fit_labelled_batch.
Defined.

Lemma calculate_meets_an_unfitted_imputer_witness :
  _fit reference_data (unfitted (NdArray features)) = (fitted, Ok tt) /\
  snd (_split_features_by_type reference_data features) = [] /\
  snd (_split_features_by_type text_data features) = ["y"%string] /\
  snd (_calculate text_data fitted) = Raise NotFittedError.
Proof.
  split; [apply fit_reference_data|]. split; [reflexivity|].
  split; [reflexivity|].
  apply (@calculate_meets_an_unfitted_imputer backend reference_data
           (unfitted (NdArray features)) fitted text_data
           (chunk_of "chunk" 0 4 text_data) []).
  - apply fit_reference_data.
  - reflexivity.
  - reflexivity.
  - reflexivity.
  - reflexivity.
  - discriminate.
  - vm_compute. reflexivity.
  - intros f [<-|[]]. cbn. auto.
Defined.

Lemma fit_success_implies_valid_input_witness :
  _fit reference_data (unfitted (NdArray features)) = (fitted, Ok tt) /\
  empty reference_data = false /\
  incl (elements (feature_column_names (unfitted (NdArray features))))
       (columns reference_data).
Proof.
  split; [apply fit_reference_data|].
  apply (@fit_success_implies_valid_input backend reference_data
           (unfitted (NdArray features)) fitted).
  apply fit_reference_data.
Defined.


Lemma thresholds_after_fit_are_ordered_witness :
  (forall s x, std s = Some x -> (0 <= x)%Q) /\
  _fit reference_data (unfitted (NdArray features)) = (fitted, Ok tt) /\
  exists upper lower,
    _upper_alert_threshold fitted = Some upper /\
    _lower_alert_threshold fitted = Some lower /\
    (fle lower upper \/ (upper = nan /\ lower = nan)).
Proof.
  split; [apply std_nonneg|]. split; [apply fit_reference_data|].
  apply (@thresholds_after_fit_are_ordered backend reference_data
           (unfitted (NdArray features)) fitted).
  - apply std_nonneg.
  - apply fit_reference_data.
Defined.

Lemma std_of_one_value e : std [Num e] = nan.
Proof. now destruct e. Qed.

Lemma fit_one_chunk :
  _fit reference_data one_chunk_calculator = (one_chunk_fitted, Ok tt).
Proof.
  unfold one_chunk_fitted.
  assert (H : snd (_fit reference_data one_chunk_calculator) = Ok tt)
    by (vm_compute; reflexivity).
  destruct (_fit reference_data one_chunk_calculator) as [c r].
  cbn [fst snd] in *. now subst.
Qed.

Lemma calculate_one_chunk :
  _calculate drifted_data one_chunk_fitted
  = (fst (_calculate drifted_data one_chunk_fitted), Ok one_chunk_rows).
Proof.
  assert (H : snd (_calculate drifted_data one_chunk_fitted)
              = Ok one_chunk_rows)
    by (vm_compute; reflexivity).
  destruct (_calculate drifted_data one_chunk_fitted) as [c r].
  cbn [fst snd] in *. now subst.
Qed.

Lemma single_reference_chunk_never_alerts_witness :
  (forall e, std [Num e] = nan) /\
  _fit reference_data one_chunk_calculator = (one_chunk_fitted, Ok tt) /\
  length (split (chunker one_chunk_calculator) reference_data None None
            (timestamp_column_name one_chunk_calculator)) = 1 /\
  one_chunk_rows <> [] /\
  Forall (fun row => upper_threshold row = Some nan /\
                     lower_threshold row = Some nan /\ alert row = false)
    one_chunk_rows.
Proof.
  split; [apply std_of_one_value|]. split; [apply fit_one_chunk|].
  split; [reflexivity|]. split; [discriminate|].
  apply Forall_forall. intros row Hrow.
  apply (@single_reference_chunk_never_alerts backend reference_data
           one_chunk_calculator one_chunk_fitted
           (chunk_of "chunk" 0 4 reference_data) drifted_data
           (fst (_calculate drifted_data one_chunk_fitted))
           one_chunk_rows row).
  - apply std_of_one_value.
  - apply fit_one_chunk.
  - reflexivity.
  - apply calculate_one_chunk.
  - exact Hrow.
Defined.

Lemma plot_without_reference_results_witness :
  previous_reference_results (calculator orphan_result) = None /\
  plot orphan_result "drift" true
  = ({| data := map (set_period "analysis") (data orphan_result);
        calculator := calculator orphan_result |},
     Raise TypeError).
Proof.
  split; [reflexivity|].
  apply (@plot_without_reference_results backend orphan_result).
  reflexivity.
Defined.

Lemma missing_feature_never_returns_witness :
  ~ In "y"%string (columns narrow_batch) /\
  forall error,
    _calculate_reconstruction_error_for_data features [] features
      narrow_batch (Some encoder) (Some scaler) (Some pca) imputer imputer
    <> Ok error.
Proof.
  assert (Hnot : ~ In "y"%string (columns narrow_batch))
    by (cbn; intuition discriminate).
  split; [exact Hnot|].
  apply (@missing_feature_never_returns backend features [] features
           narrow_batch (Some encoder) (Some scaler) (Some pca)
           imputer imputer "y"%string).
  - cbn. auto.
  - exact Hnot.
Defined.

Lemma labelled_batch_wf : wf_frame labelled_batch.
Proof.
  split.
  - cbn. repeat constructor; cbn; intuition discriminate.
  - cbn. repeat constructor.
Qed.

Lemma reconstructed_label_collision_witness :
  wf_frame labelled_batch /\
  In (rf "x") (columns labelled_batch) /\
  _calculate_reconstruction_error_for_data features [] features
    labelled_batch (Some encoder) (Some scaler) (Some pca) imputer imputer
  = Raise ValueError.
Proof.
  split; [apply labelled_batch_wf|].
  split; [cbn; auto|].
  apply (@reconstructed_label_collision backend features [] features
           labelled_batch encoder scaler pca imputer imputer
           fill_zero fill_zero "x"%string).
  - apply labelled_batch_wf.
  - repeat constructor; cbn; intuition discriminate.
  - intros f [<-|[<-|[]]]; cbn; auto.
  - intros f [].
  - intros f [<-|[<-|[]]]; cbn; auto.
  - intros f [<-|[<-|[]]]; cbn; intuition discriminate.
  - cbn. auto.
  - cbn. auto.
  - reflexivity.
  - reflexivity.
  - apply fill_zero_shape.
  - apply fill_zero_shape.
  - apply (count_encoder_shape raw).
  - apply (standard_scaler_shape (encoder_transform encoder raw)).
  - apply axis_projection_shape.
Defined.

Lemma selected_feature_names_witness :
  _get_selected_feature_names (fun f : string * nat => fst f) (@rev string)
    ["b"; "a"; "b"; "d"]%string
    [("a", 1); ("b", 2); ("c", 3); ("a", 4)]%string
  = ["b"; "a"]%string /\
  NoDup (_get_selected_feature_names (fun f : string * nat => fst f)
           (@rev string) ["b"; "a"; "b"; "d"]%string
           [("a", 1); ("b", 2); ("c", 3); ("a", 4)]%string) /\
  forall x,
    In x (_get_selected_feature_names (fun f : string * nat => fst f)
            (@rev string) ["b"; "a"; "b"; "d"]%string
            [("a", 1); ("b", 2); ("c", 3); ("a", 4)]%string) <->
    In x ["b"; "a"; "b"; "d"]%string /\
    exists f, In f [("a", 1); ("b", 2); ("c", 3); ("a", 4)]%string /\
              fst f = x.
Proof.
  split; [reflexivity|].
  apply (@selected_feature_names_are_the_common_names (string * nat)
           (fun f => fst f) (@rev string)).
  - intros s x. symmetry. apply in_rev.
  - intros s. apply NoDup_rev.
Defined.

Lemma minimum_chunk_size_at_least_witness :
  (35 <= _minimum_chunk_size features)%Z <->
  (35 ^ 6 <= 20 ^ 6 * Z.of_nat (length features) ^ 5)%Z.
Proof.
  apply (@minimum_chunk_size_at_least features 35). lia.
Defined.

Lemma minimum_chunk_size_grows_witness :
  (_minimum_chunk_size ["x"]%string <= _minimum_chunk_size features)%Z.
Proof.
  apply (@minimum_chunk_size_grows ["x"]%string features). cbn. lia.
Defined.

Lemma minimum_chunk_size_bounds_witness :
  (20 <= _minimum_chunk_size features
   <= 20 * Z.of_nat (length features))%Z.
Proof.
  apply (@minimum_chunk_size_bounds features). discriminate.
Defined.

Lemma calculate_without_artifacts_witness :
  _encoder (unfitted (NdArray features)) = None /\
  length (split (chunker (unfitted (NdArray features))) reference_data
            (Some features) (Some (_minimum_chunk_size features))
            "timestamp") = 1 /\
  forall rows,
    snd (_calculate reference_data (unfitted (NdArray features))) <> Ok rows.
Proof.
  split; [reflexivity|]. split; [reflexivity|].
  apply (@calculate_without_artifacts_never_returns backend reference_data
           (unfitted (NdArray features))).
  - now left.
  - discriminate.
Defined.

End FurtherWitnesses.
